(* ===== verification/_CoqProject ===== *)
-Q . S2P
Prelude.v
JsRuntime.v
Regex.v
Patterns.v
TicketNumber.v
FormState.v
Json.v
Validation.v
Handlers.v
Effects.v
Landing.v
Heap.v
Render.v
Submission.v
Typing.v
Contract.v
Scenarios.v
