(* ===== verification/Prelude.v ===== *)
(** * Verification of the Booking front end (ticket purchase form)

    The repository is a Next.js front end with two source files:
    - [src/components/Landing.tsx] ([EventBanner]): static marketing
      content and a link to [/buy-ticket]; it has no state and no logic.
    - [src/pages/buy-ticket.tsx] ([FormPage]): a React component whose
      [useState] hooks hold the whole order (ticket type, unit amount,
      number of persons, the per-person details, the payment screenshot,
      the ticket number, the error list, the modal and QR-code flags).
      Its event handlers change that state; [validateForm] checks it with
      two regular expressions; [handleSubmit] validates and issues one
      [fetch] POST whose continuation, after the [await], sets the modal
      flag or the error list.

    The development models [FormPage] as a state machine, one file per
    part, in dependency order (_CoqProject):
    - [Prelude] (this file): the [js_scope] notations, the [booking] and
      [booking_rw] hint databases, the tactics and the lemmas on strings
      and lists that the other files share.
    - [JsRuntime] (Module [Js]): the part of the JavaScript runtime the
      handlers call, modelled from the ECMAScript semantics: numbers
      ([JSNum]: NaN or an integer), [parseInt(_, 10)],
      [Number.prototype.toString], [padStart], the [Array(n)] constructor
      and [Array.from({length: n})] with their [RangeError], [ToLength],
      sparse arrays with holes, the spread and the index assignment that
      extends an array, and [completion] for thrown exceptions.
    - [Regex]: regular expressions with character classes, their language
      as an inductive relation, and a Brzozowski-derivative matcher proved
      equal to the language ([matches_correct]); the [Matcher] class is
      the interface the validation is written against. Three analyses
      (length bounds, exact count of a character, allowed characters)
      are proved sound.
    - [Patterns]: the e-mail and phone patterns of lines 103 and 111.
    - [TicketNumber]: [generateTicketNumber] (lines 22-27).
    - [FormState]: the state of [FormPage] (one field per [useState],
      lines 5-16), person objects with their key order, [totalAmount].
    - [Json]: [JSON.stringify(personDetails)] of line 75 (SerializeJSONArray,
      SerializeJSONObject, QuoteJSONString) and a decoder of the JSON
      grammar on fuel, for the round trip.
    - [Validation]: [validateForm] (lines 95-120).
    - [Handlers]: the event handlers (lines 18-59, 135, 264).
    - [Effects]: the [useEffect] of lines 18-20 under React's commit
      loop (an effect runs on the first commit, after every commit
      without a dependency array, or when a dependency changed).
    - [Landing]: [EventBanner] of src/components/Landing.tsx as an element
      tree with its texts as JSX renders them, its link and its image,
      with the Next.js route of a page file and the [src] rule of
      [next/image].
    - [Heap]: the roster by reference, where [Array(n).fill(obj)] (line
      39) shares one object between all elements, in a [gmap] heap.
    - [Render]: the JSX of lines 124-311 as [FormPage_view]: the modal
      flag, the read-only inputs, one row per index of
      [Array.from({length: numPersons})] with its labels and values, the
      total, the QR panel and the error list, or the [RangeError] that
      [Array.from] throws for a count above [2^32 - 1].
    - [Submission]: [handleSubmit] split at its [await] (lines 61-93), the
      [FormData] of lines 69-75 (persons as their JSON text), the page
      (state and requests in flight), [step] (the event bindings of the
      JSX), [offered]/[enabled] (what the rendered view offers; nothing
      once rendering threw), the inductive [reachable] and its invariants,
      proved by rule induction.
    - [Typing]: the runtime type of [personDetails] on reachable pages.
    - [Contract]: the spec's submission machine (section 4.4: Idle,
      Idle-with-errors, Submitting, Submitted, Failed), a simulation of it
      by the page, and the progress of a purchase.
    - [Scenarios]: the behaviours the findings describe, each stated for
      every page, state or input of its kind, and the purchase scenario
      of the spec for every valid person; concrete runs serve as their
      witnesses.

    What the theorems show. Validation: it passes exactly on complete
    persons and a screenshot, it returns at most 3 messages per person
    plus one, it throws a [TypeError] exactly on [undefined] elements,
    which no reachable page holds. Patterns: what an accepted e-mail or
    phone looks like, the spec's examples, every combination of the three
    optional phone prefixes. Ticket number: format, 16 characters; a
    strict reader of [GRADPARTY-NNN/24] accepts exactly the ticket
    numbers and gives their draws back (round trip both ways), hence
    injectivity. Handlers: the effect of each handler on
    every field. Payload: decoding the JSON text of the persons gives them
    back, keys in order, [null] for holes ([Json.parse_json_stringify]);
    the decoder terminates on its fuel; every request in flight decodes
    to persons that pass validation. Mount: with the dependency array
    [[]] React's commit loop ends after two commits whatever the random
    draws ([Effects.mount_terminates]). Landing: the banner is constant,
    so its facts (the one link leads to the form's route, the
    illustration's [src] is refused by [next/image]) are evaluations,
    kept as examples. Page: a request is issued exactly
    when validation passes; every request in flight from a reachable page
    passed validation; the price always matches the ticket type, and the
    amount and total shown always match the type and count shown; the
    roster has as many elements as the count, except on the untouched
    form; every stored person is an object with distinct keys and has a
    rendered row; settling keeps the form data. Refinement: under the
    spec's discipline (no second submit in flight, nothing under the
    modal) every event is one step of the spec's machine, and whole runs
    follow it; from any page that renders a purchase can be completed.
    Equivalence: the roster by reference (shared object) equals the
    roster by value after any sequence of edits. View: closing the modal
    changes nothing else on screen, the QR button switches the QR panel
    and nothing else, a row shows what was typed into it, rendering
    throws exactly for a count above [2^32 - 1]. Behaviours (for every
    page or input of the kind): an empty roster submits without persons
    whatever the count; a count of 0 submits no person and total 0; a
    NaN count keeps and hides the stored persons and sends the total
    NaN; a count above [2^32 - 1] unmounts the page; Submit stays offered
    and a second click resends the request; a success keeps stale
    messages; an edit of a row without a stored object stores an object
    with one key; a missing e-mail is reported and blocks the request;
    the purchase for every valid person succeeds from the mounted form.

    Bounds, fuel and evaluation. The random draw is a parameter in
    [[0, 999]]; the ticket facts are checked for all 1000 draws by
    [vm_compute]. The witnesses run at most a dozen events, evaluated by
    [vm_compute]; the purchase scenario is run symbolically. The commit loop of [Effects] runs on fuel, one unit per
    commit; two are enough and more change nothing. The JSON decoder is
    on fuel too:
    [parse_json] gives it [2 * length + 1], which is enough for every
    input ([Json.parse_value_terminates]: each call consumes a character
    or hands a strictly shorter input to a loop that does), and more fuel
    never changes the result. Every other recursion is structural.

    Not modelled. In the JSX, class names, styling and the layout props of
    the images carry no behaviour and are left out; the static texts of
    the form page are left out too, except those of the QR panel. The
    [accept] attribute of the file input only filters the browser's
    picker and the handler does not check the file, so files are modelled
    by their name. React's development-mode double run of effects
    (StrictMode) is not modelled. The
    remote service and the transport are external: a response is an
    event. After the render throws, React unmounts the page; the model
    offers no event then, and does not follow the settling of requests
    still in flight, whose state updates React drops. The [min='1'] of the
    count input only constrains the spinner, as in the browser.

    Modelling choices. JavaScript strings are Rocq [string]s (lists of
    8-bit characters): the inputs are taken to be ASCII. JavaScript numbers
    are [JSNum]: the values the form computes are NaN or integers, and
    integers are kept exact as [Z]; the model is exact for magnitudes below
    2^53 (and 10^21 for [toString]), beyond which a double rounds, which
    only changes the digits shown for absurd person counts. [-0] is
    identified with [0]: every operation of the form treats them alike.
    The React state updates of one handler are applied in order, and an
    exception thrown by a handler keeps the updates enqueued before it.
    Between two events React re-renders, so each handler sees the current
    state. The JSON text is a byte string: QuoteJSONString escapes the
    control characters and copies the other bytes, and the decoder reads
    [\u00XX] escapes only. *)

From Stdlib Require Import String Ascii ZArith List Lia Bool.
Import ListNotations.

(** ** Notations of the development *)

Declare Scope js_scope.
Delimit Scope js_scope with js.

(** JavaScript's strict equality on strings. *)
Notation "a === b" := (String.eqb a b) (at level 70, no associativity) : js_scope.

(** ** Hint database *)

Create HintDb booking discriminated.
Create Rewrite HintDb booking_rw.

(** ** Tactics *)

Ltac inv H := inversion H; subst; clear H.

(** Turn boolean string equalities into propositions and substitute. *)
Ltac streq :=
  repeat match goal with
         | H : String.eqb _ _ = true |- _ => apply String.eqb_eq in H; subst
         | H : String.eqb _ _ = false |- _ => apply String.eqb_neq in H
         end.

(** Close a goal by evaluating closed terms. *)
Ltac eval_close := vm_compute; reflexivity.

(** ** Strings *)

Local Open Scope string_scope.

Lemma string_app_nil_r (s : string) : s ++ "" = s.
Proof. induction s; simpl; congruence. Qed.

Lemma string_app_assoc (a b c : string) : (a ++ b) ++ c = a ++ (b ++ c).
Proof. induction a; simpl; congruence. Qed.

Lemma string_length_app (a b : string) :
  String.length (a ++ b) = String.length a + String.length b.
Proof. induction a; simpl; congruence. Qed.

#[export] Hint Rewrite string_app_nil_r string_app_assoc string_length_app : booking_rw.

(** Splitting a non-empty string: the first character belongs to the
    first non-empty part. *)
Lemma string_cons_app_inv (c : ascii) (s s1 s2 : string) :
  String c s = s1 ++ s2 ->
  (s1 = "" /\ s2 = String c s) \/
  (exists s1', s1 = String c s1' /\ s = s1' ++ s2).
Proof.
  destruct s1 as [|c1 s1']; simpl; intros H.
  - left; auto.
  - right; inv H; eauto.
Qed.

Lemma string_app_eq_nil (s1 s2 : string) : s1 ++ s2 = "" -> s1 = "" /\ s2 = "".
Proof. destruct s1; simpl; [auto | discriminate]. Qed.

(** The rest of [s] after the prefix [p], if [s] starts with [p]. *)
Fixpoint strip_prefix (p s : string) : option string :=
  match p, s with
  | EmptyString, _ => Some s
  | String c p', String d s' => if Ascii.eqb c d then strip_prefix p' s' else None
  | String _ _, EmptyString => None
  end.

Lemma strip_prefix_length p s r : strip_prefix p s = Some r -> String.length r + String.length p = String.length s.
Proof.
  revert s. induction p as [|c p IH]; intros [|d s]; simpl; try discriminate.
  - intros [= <-]. simpl. lia.
  - intros [= <-]. simpl. lia.
  - destruct (Ascii.eqb c d); [|discriminate]. intros H. apply IH in H. lia.
Qed.

Lemma strip_prefix_app p s r : strip_prefix p s = Some r -> s = (p ++ r)%string.
Proof.
  revert s. induction p as [|c p IH]; intros [|d s]; simpl; try discriminate; try congruence.
  destruct (Ascii.eqb_spec c d) as [->|]; [|discriminate]. intros H. now rewrite (IH s H).
Qed.

(** Number of occurrences of a character. *)
Fixpoint count_char (c : ascii) (s : string) : nat :=
  match s with
  | EmptyString => 0
  | String d s' => (if Ascii.eqb c d then 1 else 0) + count_char c s'
  end.

Lemma count_char_app (c : ascii) (a b : string) :
  count_char c (a ++ b) = count_char c a + count_char c b.
Proof. induction a as [|d a IH]; simpl; [reflexivity | rewrite IH; lia]. Qed.

#[export] Hint Rewrite count_char_app : booking_rw.

(** ** Lists *)

Lemma length_concat_le {A} (k : nat) (ls : list (list A)) :
  Forall (fun l => length l <= k) ls -> length (concat ls) <= k * length ls.
Proof.
  induction 1 as [|l ls Hl _ IH]; simpl; [lia|].
  rewrite length_app. lia.
Qed.

#[export] Hint Resolve length_concat_le : booking.
