(* ===== verification/JsRuntime.v ===== *)
(** * The JavaScript runtime the form calls

    The handlers of src/pages/buy-ticket.tsx call a few built-ins whose
    behaviour decides what the form does on odd inputs. They are not code
    of the repository: they are modelled here from the ECMAScript
    specification, restricted to the values the form produces.
    - numbers ([JSNum]): NaN or an integer; multiplication propagates NaN;
    - [Number.prototype.toString] on integers ([num_to_string]);
    - [parseInt(s, 10)] ([parseInt]): leading white space, an optional
      sign, the longest prefix of decimal digits, NaN when it is empty;
    - [String.prototype.padStart] with a one-character filler;
    - the [Array(n)] constructor, which throws a [RangeError] unless [n]
      is an integer in [[0, 2^32 - 1]] ([array_ctor_len]), and
      [Array.from({length: n})], whose length is [ToLength(n)]
      ([to_length]) and which throws the same [RangeError] through the
      [Array] constructor when that length is above [2^32 - 1]
      ([array_from_len]);
    - sparse arrays ([slot]): holes, the spread [[...a]] that turns holes
      into [undefined], reading an index, and the index assignment that
      extends an array with holes ([arr_set]).
    The roundtrip [parseInt_num_to_string] and the padding lemmas are used
    by the ticket number. *)

From S2P Require Import Prelude.
From Stdlib Require Import String Ascii ZArith List Lia Bool Arith DecimalString DecimalN.
Import ListNotations.
Local Open Scope string_scope.

Module Js.

(** ** Errors *)

Inductive js_error := TypeError | RangeError.

(** The completion of a call: a value, or an exception thrown. *)
Inductive completion (A : Type) := Normal (a : A) | Abrupt (e : js_error).
Arguments Normal {A} a. Arguments Abrupt {A} e.

(** ** Numbers *)

Inductive JSNum := NaN | Num (z : Z).

Definition js_mul (a b : JSNum) : JSNum :=
  match a, b with
  | Num x, Num y => Num (x * y)
  | _, _ => NaN
  end.

Infix "*" := js_mul : js_scope.

(** Decimal digits of a natural number, most significant first. *)
Definition N_to_string (n : N) : string := NilEmpty.string_of_uint (N.to_uint n).

(** [Number.prototype.toString()] on NaN and integers. *)
Definition num_to_string (x : JSNum) : string :=
  match x with
  | NaN => "NaN"
  | Num z => if (z <? 0)%Z then "-" ++ N_to_string (Z.to_N (- z)) else N_to_string (Z.to_N z)
  end.

(** ** [parseInt(s, 10)] *)

(** White space over ASCII: tab, line feed, vertical tab, form feed,
    carriage return, space. *)
Definition is_ws (c : ascii) : bool :=
  (Nat.leb 9 (nat_of_ascii c) && Nat.leb (nat_of_ascii c) 13) || Ascii.eqb c " ".

Definition is_dec_digit (c : ascii) : bool :=
  Nat.leb 48 (nat_of_ascii c) && Nat.leb (nat_of_ascii c) 57.

Fixpoint trim_start (s : string) : string :=
  match s with
  | EmptyString => EmptyString
  | String c s' => if is_ws c then trim_start s' else s
  end.

Fixpoint digit_prefix (s : string) : string :=
  match s with
  | EmptyString => EmptyString
  | String c s' => if is_dec_digit c then String c (digit_prefix s') else EmptyString
  end.

(** The value of the longest prefix of decimal digits, if it is not empty. *)
Definition parse_unsigned (s : string) : option N :=
  match digit_prefix s with
  | EmptyString => None
  | ds => option_map N.of_uint (NilEmpty.uint_of_string ds)
  end.

(** The optional sign: [-] gives -1, [+] or nothing gives 1. *)
Definition split_sign (s : string) : Z * string :=
  match s with
  | String "-" r => ((-1)%Z, r)
  | String "+" r => (1%Z, r)
  | _ => (1%Z, s)
  end.

Definition parseInt (s : string) : JSNum :=
  let '(sign, s2) := split_sign (trim_start s) in
  match parse_unsigned s2 with
  | Some n => Num (sign * Z.of_N n)
  | None => NaN
  end.

(** ** [padStart] *)

Definition pad_start (s : string) (n : nat) (c : ascii) : string :=
  if Nat.leb n (String.length s) then s
  else string_of_list_ascii (repeat c (n - String.length s)) ++ s.

(** ** Array lengths *)

Definition max_array_length : Z := (2 ^ 32 - 1)%Z.
Definition max_safe_length : Z := (2 ^ 53 - 1)%Z.

(** [Array(n)]: the length of the new array, or [None] for the
    [RangeError] the constructor throws. *)
Definition array_ctor_len (x : JSNum) : option nat :=
  match x with
  | Num z => if ((0 <=? z) && (z <=? max_array_length))%Z then Some (Z.to_nat z) else None
  | NaN => None
  end.

(** [ToLength], used by [Array.from({length: n})]. *)
Definition to_length (x : JSNum) : Z :=
  match x with
  | NaN => 0
  | Num z => Z.max 0 (Z.min z max_safe_length)
  end.

(** [Array.from({length: x})] (an array-like without an iterator): the
    length [ToLength(x)] of the new array, or [None] for the [RangeError]
    that [new Array(len)] throws when [len] is above [2^32 - 1]. *)
Definition array_from_len (x : JSNum) : option nat :=
  let len := to_length x in
  if (len <=? max_array_length)%Z then Some (Z.to_nat len) else None.

(** ** Sparse arrays *)

Inductive slot (A : Type) := Hole | Undef | Val (a : A).
Arguments Hole {A}. Arguments Undef {A}. Arguments Val {A} a.

Section Arrays.
Context {A : Type}.

(** [[...a]]: the iterator reads holes as [undefined]. *)
Definition spread (l : list (slot A)) : list (slot A) :=
  map (fun x => match x with Hole => Undef | _ => x end) l.

(** [a[i]]: a hole or an index past the end reads as [undefined]. *)
Definition arr_get (l : list (slot A)) (i : nat) : option A :=
  match nth_error l i with
  | Some (Val a) => Some a
  | _ => None
  end.

(** [a[i] = v] for an array index [i < 2^32 - 1]: past the end, the array
    grows and the new positions in between are holes. A larger key is an
    ordinary property, not an element: the elements do not change. *)
Definition arr_set (l : list (slot A)) (i : nat) (v : A) : list (slot A) :=
  if (Z.of_nat i <? max_array_length)%Z then
    if Nat.ltb i (length l) then firstn i l ++ Val v :: skipn (S i) l
    else l ++ repeat Hole (i - length l) ++ [Val v]
  else l.

End Arrays.

(** ** Lemmas *)

Lemma js_mul_num a b : js_mul (Num a) (Num b) = Num (a * b).
Proof. reflexivity. Qed.

Lemma string_of_uint_digits d :
  digit_prefix (NilEmpty.string_of_uint d) = NilEmpty.string_of_uint d.
Proof. induction d; simpl; rewrite ?IHd; reflexivity. Qed.

Lemma N_to_string_nonempty n : N_to_string n <> EmptyString.
Proof.
  unfold N_to_string. destruct n as [|p]; [discriminate|].
  simpl. destruct (Pos.to_uint p) eqn:E; try discriminate.
  exfalso. pose proof (DecimalPos.Unsigned.to_uint_nonnil p). congruence.
Qed.

Lemma trim_start_digits s :
  (exists c s', s = String c s' /\ is_dec_digit c = true) -> trim_start s = s.
Proof.
  intros (c & s' & -> & Hc). simpl.
  destruct (is_ws c) eqn:Hw; [|reflexivity].
  exfalso. unfold is_ws, is_dec_digit in *.
  destruct c as [[] [] [] [] [] [] [] []]; discriminate.
Qed.

Lemma N_to_string_head n :
  exists c s', N_to_string n = String c s' /\ is_dec_digit c = true.
Proof.
  pose proof (N_to_string_nonempty n) as Hne. unfold N_to_string in *.
  destruct (N.to_uint n); simpl in *; try congruence; eexists _, _; split; reflexivity.
Qed.

Lemma parse_unsigned_N n : parse_unsigned (N_to_string n) = Some n.
Proof.
  pose proof (N_to_string_nonempty n) as Hne.
  unfold parse_unsigned, N_to_string in *. rewrite string_of_uint_digits.
  pose proof (NilEmpty.usu (N.to_uint n)) as U.
  destruct (NilEmpty.string_of_uint (N.to_uint n)) eqn:E; [congruence|].
  rewrite U. simpl. now rewrite DecimalN.Unsigned.of_to.
Qed.

(** [parseInt] reads back what [toString] prints, for every integer. *)
Theorem parseInt_num_to_string z : parseInt (num_to_string (Num z)) = Num z.
Proof.
  unfold parseInt, num_to_string.
  destruct (z <? 0)%Z eqn:Hz.
  - simpl. rewrite parse_unsigned_N. f_equal.
    change (Z.opp (Z.of_N (Z.to_N (- z))) = z).
    apply Z.ltb_lt in Hz. rewrite Z2N.id by lia. lia.
  - rewrite trim_start_digits by apply N_to_string_head.
    destruct (N_to_string_head (Z.to_N z)) as (c & s' & E & Hc).
    assert (Hsign : split_sign (N_to_string (Z.to_N z)) = (1%Z, N_to_string (Z.to_N z)))
      by (rewrite E; destruct c as [[] [] [] [] [] [] [] []]; try reflexivity; discriminate).
    rewrite Hsign, parse_unsigned_N. f_equal.
    apply Z.ltb_ge in Hz. rewrite Z2N.id by lia. lia.
Qed.

Lemma length_spread {A} (l : list (slot A)) : length (spread l) = length l.
Proof. apply length_map. Qed.

End Js.
