(* ===== verification/Regex.v ===== *)
(** * Regular expressions and [RegExp.prototype.test]

    [validateForm] (src/pages/buy-ticket.tsx, lines 103 and 111) tests
    the e-mail and the phone number with two anchored JavaScript regular
    expressions, [/^...$/.test(s)]. Neither pattern uses back-references,
    look-arounds or flags, so [test] succeeds exactly when the whole
    string belongs to the regular language of the pattern: the
    backtracking search of ECMAScript is exhaustive for such patterns.

    This file holds the syntax of the regular expressions the patterns
    need (character classes as lists of ranges, concatenation,
    alternation, Kleene star and the derived [+], [?], [{n}], [{m,n}]),
    their language as the inductive relation [in_re], and an executable
    matcher [matches] by Brzozowski derivatives, proved equal to the
    language ([matches_correct]). The [Matcher] class is the interface the
    validation uses: any matcher proved against [in_re]. The file ends
    with three analyses of a pattern (length bounds, the exact count of a
    character, the characters that can occur) and their soundness. *)

From S2P Require Import Prelude.
From Stdlib Require Import String Ascii List Lia Bool Arith.
Import ListNotations.
Local Open Scope string_scope.

Module Regex.

(** ** Syntax *)

(** A character class [[a-zA-Z_]] is the list of its inclusive ranges. *)
Definition range := (ascii * ascii)%type.

Definition in_range (c : ascii) (r : range) : bool :=
  Nat.leb (nat_of_ascii (fst r)) (nat_of_ascii c) && Nat.leb (nat_of_ascii c) (nat_of_ascii (snd r)).

Definition in_class (cl : list range) (c : ascii) : bool := existsb (in_range c) cl.

Inductive re : Type :=
| Void
| Eps
| Class (cl : list range)
| Cat (r1 r2 : re)
| Alt (r1 r2 : re)
| Star (r : re).

(** One literal character. *)
Definition Chr (c : ascii) : re := Class [(c, c)].

(** [r+], [r?], [r{n}] and [r{m,n}]. *)
Definition Plus (r : re) : re := Cat r (Star r).
Definition Opt (r : re) : re := Alt Eps r.

Fixpoint Rep (n : nat) (r : re) : re :=
  match n with
  | O => Eps
  | S n' => Cat r (Rep n' r)
  end.

Fixpoint RepUpTo (n : nat) (r : re) : re :=
  match n with
  | O => Eps
  | S n' => Opt (Cat r (RepUpTo n' r))
  end.

Definition RepRange (m n : nat) (r : re) : re := Cat (Rep m r) (RepUpTo (n - m) r).

(** A literal word. *)
Fixpoint Word (w : string) : re :=
  match w with
  | EmptyString => Eps
  | String c w' => Cat (Chr c) (Word w')
  end.

(** The ECMAScript classes over ASCII: [\d], [\w] and [\s] (tab, line
    feed, vertical tab, form feed, carriage return and space). *)
Definition cls_digit : list range := [("0", "9")%char].
Definition cls_word : list range :=
  [("a", "z")%char; ("A", "Z")%char; ("0", "9")%char; ("_", "_")%char].
Definition cls_space : list range := [(ascii_of_nat 9, ascii_of_nat 13); (" "%char, " "%char)].

(** ** Language *)

Inductive in_re : re -> string -> Prop :=
| in_eps : in_re Eps ""
| in_cls cl c : in_class cl c = true -> in_re (Class cl) (String c "")
| in_cat r1 r2 s1 s2 : in_re r1 s1 -> in_re r2 s2 -> in_re (Cat r1 r2) (s1 ++ s2)
| in_alt_l r1 r2 s : in_re r1 s -> in_re (Alt r1 r2) s
| in_alt_r r1 r2 s : in_re r2 s -> in_re (Alt r1 r2) s
| in_star_nil r : in_re (Star r) ""
| in_star_app r s1 s2 : in_re r s1 -> in_re (Star r) s2 -> in_re (Star r) (s1 ++ s2).

#[export] Hint Constructors in_re : booking.

(** ** Derivative matcher *)

Fixpoint nullable (r : re) : bool :=
  match r with
  | Void | Class _ => false
  | Eps | Star _ => true
  | Cat r1 r2 => nullable r1 && nullable r2
  | Alt r1 r2 => nullable r1 || nullable r2
  end.

(** Smart constructors: they drop [Void] and [Eps] operands, which keeps
    the derivatives small. *)
Definition cat (r1 r2 : re) : re :=
  match r1, r2 with
  | Void, _ | _, Void => Void
  | Eps, _ => r2
  | _, Eps => r1
  | _, _ => Cat r1 r2
  end.

Definition alt (r1 r2 : re) : re :=
  match r1, r2 with
  | Void, _ => r2
  | _, Void => r1
  | _, _ => Alt r1 r2
  end.

Fixpoint deriv (c : ascii) (r : re) : re :=
  match r with
  | Void | Eps => Void
  | Class cl => if in_class cl c then Eps else Void
  | Cat r1 r2 =>
      if nullable r1 then alt (cat (deriv c r1) r2) (deriv c r2)
      else cat (deriv c r1) r2
  | Alt r1 r2 => alt (deriv c r1) (deriv c r2)
  | Star r1 => cat (deriv c r1) (Star r1)
  end.

Fixpoint matches (r : re) (s : string) : bool :=
  match s with
  | EmptyString => nullable r
  | String c s' => matches (deriv c r) s'
  end.

(** ** Inversion lemmas *)

Lemma in_void_inv s : ~ in_re Void s.
Proof. intros H; inv H. Qed.

Lemma in_eps_inv s : in_re Eps s -> s = "".
Proof. intros H; inv H; reflexivity. Qed.

Lemma in_cat_iff r1 r2 s :
  in_re (Cat r1 r2) s <-> exists s1 s2, s = s1 ++ s2 /\ in_re r1 s1 /\ in_re r2 s2.
Proof.
  split.
  - intros H; inv H; eauto.
  - intros (s1 & s2 & -> & H1 & H2); auto with booking.
Qed.

Lemma in_alt_iff r1 r2 s : in_re (Alt r1 r2) s <-> in_re r1 s \/ in_re r2 s.
Proof. split; [intros H; inv H; auto | intros [H|H]; auto with booking]. Qed.

Lemma in_class_iff cl s :
  in_re (Class cl) s <-> exists c, s = String c "" /\ in_class cl c = true.
Proof. split; [intros H; inv H; eauto | intros (c & -> & H); auto with booking]. Qed.

(** A non-empty word of [r*] starts with a non-empty word of [r]. *)
Lemma in_star_cons_inv r c s :
  in_re (Star r) (String c s) ->
  exists s1 s2, s = s1 ++ s2 /\ in_re r (String c s1) /\ in_re (Star r) s2.
Proof.
  intros H. remember (Star r) as r' eqn:Er. remember (String c s) as w eqn:Ew.
  revert c s Ew. induction H; intros; try discriminate.
  injection Er as ->.
  destruct (string_cons_app_inv _ _ _ _ (eq_sym Ew)) as [[-> ->] | (s1' & -> & ->)].
  - eapply IHin_re2; eauto.
  - eauto.
Qed.

Lemma cat_void_l r s : in_re (Cat Void r) s <-> in_re Void s.
Proof. rewrite in_cat_iff. split; [intros (? & ? & _ & H & _) | intros H]; now apply in_void_inv in H. Qed.

Lemma cat_void_r r s : in_re (Cat r Void) s <-> in_re Void s.
Proof. rewrite in_cat_iff. split; [intros (? & ? & _ & _ & H) | intros H]; now apply in_void_inv in H. Qed.

Lemma cat_eps_l r s : in_re (Cat Eps r) s <-> in_re r s.
Proof.
  rewrite in_cat_iff. split.
  - intros (s1 & s2 & -> & H1 & H2). apply in_eps_inv in H1. now subst.
  - intros H. exists "", s; auto with booking.
Qed.

Lemma cat_eps_r r s : in_re (Cat r Eps) s <-> in_re r s.
Proof.
  rewrite in_cat_iff. split.
  - intros (s1 & s2 & -> & H1 & H2). apply in_eps_inv in H2. subst. now rewrite string_app_nil_r.
  - intros H. exists s, "". rewrite string_app_nil_r. auto with booking.
Qed.

Lemma cat_iff r1 r2 s : in_re (cat r1 r2) s <-> in_re (Cat r1 r2) s.
Proof.
  destruct r1, r2; simpl; rewrite ?cat_void_l, ?cat_void_r, ?cat_eps_l, ?cat_eps_r; reflexivity.
Qed.

Lemma alt_iff r1 r2 s : in_re (alt r1 r2) s <-> in_re (Alt r1 r2) s.
Proof.
  rewrite in_alt_iff.
  destruct r1, r2; simpl;
    try (split; [intros; auto | intros [H|H]; auto; now apply in_void_inv in H]);
    rewrite in_alt_iff; tauto.
Qed.

#[export] Hint Rewrite cat_iff alt_iff in_alt_iff : booking_rw.

(** ** Correctness of the matcher *)

Lemma nullable_correct r : nullable r = true <-> in_re r "".
Proof.
  induction r; simpl.
  - split; [discriminate | intros H; now apply in_void_inv in H].
  - split; auto with booking.
  - split; [discriminate | rewrite in_class_iff; intros (? & H & _); discriminate].
  - rewrite andb_true_iff, in_cat_iff, IHr1, IHr2. split.
    + intros [H1 H2]. exists "", ""; auto.
    + intros (s1 & s2 & E & H1 & H2).
      destruct (string_app_eq_nil _ _ (eq_sym E)); subst; auto.
  - rewrite orb_true_iff, in_alt_iff, IHr1, IHr2. tauto.
  - split; auto with booking.
Qed.

Lemma deriv_correct c r s : in_re (deriv c r) s <-> in_re r (String c s).
Proof.
  revert s. induction r; intros s; simpl.
  - split; intros H; apply in_void_inv in H; contradiction.
  - split; intros H; [apply in_void_inv in H; contradiction | inv H].
  - rewrite in_class_iff. destruct (in_class cl c) eqn:Hc.
    + split; [intros H; apply in_eps_inv in H; subst; eauto
             | intros (c' & E & _); inv E; auto with booking].
    + split; [intros H; apply in_void_inv in H; contradiction
             | intros (c' & E & H'); inv E; congruence].
  - rewrite in_cat_iff. split.
    + destruct (nullable r1) eqn:Hn;
        autorewrite with booking_rw; rewrite ?in_cat_iff;
        [intros [(s1 & s2 & -> & H1 & H2) | H] | intros (s1 & s2 & -> & H1 & H2)].
      * exists (String c s1), s2; split; [reflexivity | rewrite <- IHr1; auto].
      * exists "", (String c s); split; [reflexivity|].
        rewrite <- nullable_correct, <- IHr2; auto.
      * exists (String c s1), s2; split; [reflexivity | rewrite <- IHr1; auto].
    + intros (s1 & s2 & E & H1 & H2).
      destruct (string_cons_app_inv _ _ _ _ E) as [[-> ->] | (s1' & -> & ->)].
      * apply nullable_correct in H1. rewrite H1.
        autorewrite with booking_rw. right. rewrite IHr2; auto.
      * assert (in_re (cat (deriv c r1) r2) (s1' ++ s2)).
        { rewrite cat_iff, in_cat_iff. exists s1', s2. rewrite IHr1; auto. }
        destruct (nullable r1); autorewrite with booking_rw in *; auto.
  - autorewrite with booking_rw. rewrite IHr1, IHr2. reflexivity.
  - rewrite cat_iff, in_cat_iff. split.
    + intros (s1 & s2 & -> & H1 & H2). rewrite IHr in H1.
      change (String c (s1 ++ s2)) with (String c s1 ++ s2). auto with booking.
    + intros H. destruct (in_star_cons_inv _ _ _ H) as (s1 & s2 & -> & H1 & H2).
      exists s1, s2. rewrite IHr. auto.
Qed.

(** The matcher decides the language. *)
Theorem matches_correct r s : matches r s = true <-> in_re r s.
Proof.
  revert r. induction s as [|c s IH]; intros r; simpl.
  - apply nullable_correct.
  - rewrite IH. apply deriv_correct.
Qed.

(** ** The matcher interface *)

(** What the validation needs of [RegExp.prototype.test]: a boolean test
    that decides the language of the pattern. *)
Class Matcher := {
  accepts : re -> string -> bool;
  accepts_spec : forall r s, accepts r s = true <-> in_re r s
}.

#[export] Instance deriv_matcher : Matcher := {|
  accepts := matches;
  accepts_spec := matches_correct
|}.

(** ** Analyses of a pattern *)

(** Bounds on the length of the words of [r] ([None]: unbounded). *)
Fixpoint min_len (r : re) : nat :=
  match r with
  | Void | Eps | Star _ => 0
  | Class _ => 1
  | Cat r1 r2 => min_len r1 + min_len r2
  | Alt r1 r2 => Nat.min (min_len r1) (min_len r2)
  end.

Fixpoint max_len (r : re) : option nat :=
  match r with
  | Void | Eps => Some 0
  | Class _ => Some 1
  | Cat r1 r2 =>
      match max_len r1, max_len r2 with
      | Some a, Some b => Some (a + b)
      | _, _ => None
      end
  | Alt r1 r2 =>
      match max_len r1, max_len r2 with
      | Some a, Some b => Some (Nat.max a b)
      | _, _ => None
      end
  | Star r1 => match max_len r1 with Some 0 => Some 0 | _ => None end
  end.

(** The number of occurrences of [c] in every word of [r], when it is
    the same for all of them. *)
Definition class_only (cl : list range) (c : ascii) : bool :=
  forallb (fun rg => Ascii.eqb (fst rg) c && Ascii.eqb (snd rg) c) cl.

Fixpoint cnt_exact (c : ascii) (r : re) : option nat :=
  match r with
  | Void | Eps => Some 0
  | Class cl =>
      if negb (in_class cl c) then Some 0
      else if class_only cl c then Some 1 else None
  | Cat r1 r2 =>
      match cnt_exact c r1, cnt_exact c r2 with
      | Some a, Some b => Some (a + b)
      | _, _ => None
      end
  | Alt r1 r2 =>
      match cnt_exact c r1, cnt_exact c r2 with
      | Some a, Some b => if Nat.eqb a b then Some a else None
      | _, _ => None
      end
  | Star r1 => match cnt_exact c r1 with Some 0 => Some 0 | _ => None end
  end.

(** Whether every character of every word of [r] satisfies [p]. *)
Definition all_ascii : list ascii := map ascii_of_nat (seq 0 256).

Fixpoint chars_within (p : ascii -> bool) (r : re) : bool :=
  match r with
  | Void | Eps => true
  | Class cl => forallb (fun c => negb (in_class cl c) || p c) all_ascii
  | Cat r1 r2 | Alt r1 r2 => chars_within p r1 && chars_within p r2
  | Star r1 => chars_within p r1
  end.

Fixpoint forall_chars (p : ascii -> bool) (s : string) : bool :=
  match s with
  | EmptyString => true
  | String c s' => p c && forall_chars p s'
  end.

Lemma forall_chars_app p a b :
  forall_chars p (a ++ b) = forall_chars p a && forall_chars p b.
Proof. induction a; simpl; [reflexivity | rewrite IHa, andb_assoc; reflexivity]. Qed.

#[export] Hint Rewrite forall_chars_app : booking_rw.

Lemma in_all_ascii c : In c all_ascii.
Proof.
  unfold all_ascii. rewrite in_map_iff. exists (nat_of_ascii c). split.
  - apply ascii_nat_embedding.
  - apply in_seq. pose proof (nat_ascii_bounded c). lia.
Qed.

Lemma class_only_sound cl c d : class_only cl c = true -> in_class cl d = true -> d = c.
Proof.
  unfold class_only, in_class. rewrite forallb_forall, existsb_exists.
  intros Hall ((lo, hi) & Hin & Hr). specialize (Hall _ Hin). simpl in *.
  apply andb_true_iff in Hall as [Hlo Hhi].
  apply Ascii.eqb_eq in Hlo, Hhi. subst. unfold in_range in Hr. simpl in Hr.
  apply andb_true_iff in Hr as [H1 H2]. apply Nat.leb_le in H1, H2.
  rewrite <- (ascii_nat_embedding d), <- (ascii_nat_embedding c). f_equal. lia.
Qed.

Theorem len_sound r s :
  in_re r s -> min_len r <= String.length s /\
               (forall m, max_len r = Some m -> String.length s <= m).
Proof.
  induction 1; simpl; rewrite ?string_length_app.
  - split; [lia | intros m [= <-]; lia].
  - split; [lia | intros m [= <-]; lia].
  - destruct IHin_re1 as [A1 B1], IHin_re2 as [A2 B2]. split; [lia|].
    destruct (max_len r1), (max_len r2); intros m [= <-];
      specialize (B1 _ eq_refl); specialize (B2 _ eq_refl); lia.
  - destruct IHin_re as [A B]. split; [lia|].
    destruct (max_len r1), (max_len r2); intros m [= <-]; specialize (B _ eq_refl); lia.
  - destruct IHin_re as [A B]. split; [lia|].
    destruct (max_len r1), (max_len r2); intros m [= <-]; specialize (B _ eq_refl); lia.
  - split; [lia | intros m _; lia].
  - destruct IHin_re1 as [A1 B1], IHin_re2 as [A2 B2]. split; [lia|].
    destruct (max_len r) as [[|k]|] eqn:E; intros m Hm; try discriminate.
    injection Hm as <-. specialize (B1 _ eq_refl).
    assert (Hs : max_len (Star r) = Some 0) by (simpl; now rewrite E).
    specialize (B2 _ Hs). lia.
Qed.

Theorem cnt_sound c r s n : cnt_exact c r = Some n -> in_re r s -> count_char c s = n.
Proof.
  intros Hc H. revert n Hc. induction H; simpl; intros n Hc; rewrite ?count_char_app.
  - now injection Hc.
  - destruct (in_class cl c) eqn:Hcl; simpl in Hc.
    + destruct (class_only cl c) eqn:Ho; [|discriminate]. injection Hc as <-.
      rewrite (class_only_sound _ _ _ Ho H), Ascii.eqb_refl. reflexivity.
    + injection Hc as <-. destruct (Ascii.eqb c c0) eqn:E; [|reflexivity].
      apply Ascii.eqb_eq in E. subst. congruence.
  - destruct (cnt_exact c r1), (cnt_exact c r2); try discriminate.
    injection Hc as <-. erewrite IHin_re1, IHin_re2 by reflexivity. reflexivity.
  - destruct (cnt_exact c r1) as [a|], (cnt_exact c r2) as [b|]; try discriminate.
    destruct (Nat.eqb a b); [injection Hc as <-; auto | discriminate].
  - destruct (cnt_exact c r1) as [a|], (cnt_exact c r2) as [b|]; try discriminate.
    destruct (Nat.eqb a b) eqn:E; [injection Hc as <- | discriminate].
    apply Nat.eqb_eq in E. subst. auto.
  - destruct (cnt_exact c r) as [[|k]|]; try discriminate. now injection Hc.
  - destruct (cnt_exact c r) as [[|k]|] eqn:E; try discriminate. injection Hc as <-.
    rewrite (IHin_re1 0 eq_refl), (IHin_re2 0). reflexivity. simpl. now rewrite E.
Qed.

Theorem chars_sound p r s : chars_within p r = true -> in_re r s -> forall_chars p s = true.
Proof.
  intros Hp H. induction H; cbn [chars_within forall_chars] in *;
    rewrite ?forall_chars_app, ?andb_true_iff in *; try tauto.
  rewrite forallb_forall in Hp. specialize (Hp c (in_all_ascii c)).
  rewrite H in Hp. cbn in Hp. now rewrite Hp.
Qed.

(** Words of [r{n}] built from [n] characters of a class. *)
Lemma in_rep_class cl s :
  forall_chars (in_class cl) s = true -> in_re (Rep (String.length s) (Class cl)) s.
Proof.
  induction s as [|c s IH]; simpl; intros H; auto with booking.
  apply andb_true_iff in H as [Hc Hs].
  change (String c s) with (String c "" ++ s). auto with booking.
Qed.

End Regex.
