(* ===== verification/Patterns.v ===== *)
(** * The two patterns of [validateForm]

    src/pages/buy-ticket.tsx, line 103, tests an e-mail address with
    [/^[\w-]+(\.[\w-]+)*@([\w-]+\.)+[a-zA-Z]{2,7}$/], and line 111 tests a
    phone number with [/^(\+91[-\s]?)?[0]?(91)?[789]\d{9}$/]. This file
    writes both as [Regex.re] terms, group by group, and proves what
    acceptance implies: an accepted e-mail has exactly one [@], at least
    six characters and only word characters, dots, hyphens and [@]; an
    accepted phone number has 10 to 17 characters and ends with a digit
    7, 8 or 9 followed by nine digits, and every such ten-digit number is
    accepted. *)

From S2P Require Import Prelude Regex.
From Stdlib Require Import String Ascii List Lia Bool Arith.
Import ListNotations.
Local Open Scope string_scope.

Module Patterns.
Import Regex.

(** ** The e-mail pattern *)

(** [[\w-]] *)
Definition cls_word_hyphen : list range := cls_word ++ [("-", "-")%char].
(** [[a-zA-Z]] *)
Definition cls_letter : list range := [("a", "z")%char; ("A", "Z")%char].

(** [^[\w-]+(\.[\w-]+)*@([\w-]+\.)+[a-zA-Z]{2,7}$] *)
Definition email_re : re :=
  Cat (Plus (Class cls_word_hyphen))
  (Cat (Star (Cat (Chr ".") (Plus (Class cls_word_hyphen))))
  (Cat (Chr "@")
  (Cat (Plus (Cat (Plus (Class cls_word_hyphen)) (Chr ".")))
       (RepRange 2 7 (Class cls_letter))))).

(** [/.../.test(person.email)] *)
Definition email_test `{Matcher} (s : string) : bool := accepts email_re s.

(** ** The phone pattern *)

(** [(\+91[-\s]?)?] *)
Definition phone_country_re : re :=
  Opt (Cat (Word "+91") (Opt (Class (("-", "-")%char :: cls_space)))).

(** [^(\+91[-\s]?)?[0]?(91)?[789]\d{9}$] *)
Definition phone_prefix_re : re :=
  Cat phone_country_re (Cat (Opt (Class [("0", "0")%char])) (Opt (Word "91"))).

Definition phone_local_re : re :=
  Cat (Class [("7", "9")%char]) (Rep 9 (Class cls_digit)).

Definition phone_re : re := Cat phone_prefix_re phone_local_re.

(** [/.../.test(person.phone)] *)
Definition phone_test `{Matcher} (s : string) : bool := accepts phone_re s.

(** ** What acceptance implies *)

Definition is_digit (c : ascii) : bool := in_class cls_digit c.

Definition email_char (c : ascii) : bool :=
  in_class cls_word_hyphen c || Ascii.eqb c "." || Ascii.eqb c "@".

Section WithMatcher.
Context `{Matcher}.

Lemma email_test_in s : email_test s = true -> in_re email_re s.
Proof. apply accepts_spec. Qed.

Lemma phone_test_in s : phone_test s = true -> in_re phone_re s.
Proof. apply accepts_spec. Qed.

(** C16: an address the e-mail pattern accepts contains exactly one [@],
    has at least six characters ([a@b.cd]) and is made of word
    characters, hyphens, dots and the [@] only. *)
Theorem email_test_shape s :
  email_test s = true ->
  count_char "@" s = 1 /\ 6 <= String.length s /\ forall_chars email_char s = true.
Proof.
  intros Hs. apply email_test_in in Hs. split; [|split].
  - exact (cnt_sound "@" email_re s 1 eq_refl Hs).
  - exact (proj1 (len_sound _ _ Hs)).
  - exact (chars_sound email_char email_re s ltac:(vm_compute; reflexivity) Hs).
Qed.

(** C17: a number the phone pattern accepts has between 10 and 17
    characters, and it ends with a digit 7, 8 or 9 followed by nine
    digits, after a prefix the pattern allows. *)
Theorem phone_test_shape s :
  phone_test s = true ->
  10 <= String.length s <= 17 /\
  exists pre d rest,
    s = pre ++ String d rest /\ in_re phone_prefix_re pre /\
    in_class [("7", "9")%char] d = true /\
    String.length rest = 9 /\ forall_chars is_digit rest = true.
Proof.
  intros Hs. apply phone_test_in in Hs.
  destruct (len_sound _ _ Hs) as [Hmin Hmax]. specialize (Hmax 17 eq_refl).
  split; [cbn in Hmin; lia|].
  apply in_cat_iff in Hs as (pre & loc & -> & Hpre & Hloc).
  apply in_cat_iff in Hloc as (sd & rest & -> & Hd & Hrest).
  apply in_class_iff in Hd as (d & -> & Hd).
  exists pre, d, rest. do 3 (split; [first [reflexivity | assumption]|]). split.
  - destruct (len_sound _ _ Hrest) as [A B]. specialize (B 9 eq_refl). cbn in A. lia.
  - exact (chars_sound is_digit (Rep 9 (Class cls_digit)) rest ltac:(vm_compute; reflexivity) Hrest).
Qed.

(** C18: every ten-digit number that starts with 7, 8 or 9 passes the
    phone pattern, with no prefix. *)
Theorem phone_test_local d rest :
  in_class [("7", "9")%char] d = true -> String.length rest = 9 ->
  forall_chars is_digit rest = true -> phone_test (String d rest) = true.
Proof.
  intros Hd Hlen Hrest. apply accepts_spec.
  change (String d rest) with ("" ++ (String d "" ++ rest)).
  apply in_cat.
  - apply nullable_correct. reflexivity.
  - apply in_cat; [now constructor|]. rewrite <- Hlen. now apply in_rep_class.
Qed.

(** C19: the three optional groups of the phone pattern combine
    freely: every country prefix ([+91], [+91-], [+91 ] or none), then an
    optional [0], then an optional [91], before any ten-digit number
    that starts with 7, 8 or 9, is accepted, as in "+91-0919876543210";
    the spec describes one optional prefix among [+91], [91] and [0]. *)
Theorem phone_prefixes_combine cp z n d rest :
  In cp [""; "+91"; "+91-"; "+91 "] -> In z [""; "0"] -> In n [""; "91"] ->
  in_class [("7", "9")%char] d = true -> String.length rest = 9 ->
  forall_chars is_digit rest = true ->
  phone_test (cp ++ z ++ n ++ String d rest) = true.
Proof.
  intros Hcp Hz Hn Hd Hlen Hrest. apply accepts_spec.
  rewrite <- (string_app_assoc z n), <- string_app_assoc. apply in_cat.
  - apply matches_correct.
    repeat destruct Hcp as [<-|Hcp]; try destruct Hcp;
    repeat destruct Hz as [<-|Hz]; try destruct Hz;
    repeat destruct Hn as [<-|Hn]; try destruct Hn; reflexivity.
  - change (String d rest) with (String d "" ++ rest). apply in_cat; [now constructor|].
    rewrite <- Hlen. now apply in_rep_class.
Qed.

End WithMatcher.

(** ** Concrete inputs *)

Lemma email_test_shape_witness :
  email_test "asha@mail.com" = true /\
  (count_char "@" "asha@mail.com" = 1 /\ 6 <= String.length "asha@mail.com" /\
   forall_chars email_char "asha@mail.com" = true).
Proof.
  split; [vm_compute; reflexivity|].
  apply email_test_shape. vm_compute. reflexivity.
Defined.

Lemma phone_test_shape_witness :
  phone_test "+91 9876543210" = true /\ 10 <= String.length "+91 9876543210" <= 17.
Proof.
  split; [vm_compute; reflexivity|].
  apply (proj1 (@phone_test_shape deriv_matcher "+91 9876543210" ltac:(vm_compute; reflexivity))).
Defined.

Lemma phone_test_local_witness : phone_test "9876543210" = true.
Proof. apply phone_test_local; vm_compute; reflexivity. Defined.

(** The examples of the spec: "9876543210" passes the phone pattern
    and "12345" does not; an address without a dot after the [@] fails
    the e-mail pattern. *)
Theorem pattern_spec_examples :
  phone_test "9876543210" = true /\ phone_test "12345" = false /\
  email_test "asha@mail.com" = true /\ email_test "asha@mail" = false.
Proof. vm_compute. repeat split. Qed.

Lemma phone_prefixes_combine_witness : phone_test "+91-0919876543210" = true.
Proof.
  apply (phone_prefixes_combine "+91-" "0" "91" "9" "876543210"); simpl; auto; reflexivity.
Defined.

End Patterns.
