(* ===== verification/TicketNumber.v ===== *)
(** * The ticket number

    [generateTicketNumber] (src/pages/buy-ticket.tsx, lines 22-27) draws
    [Math.floor(Math.random() * 1000)], prints it, pads it to three digits
    with zeros and wraps it as [GRADPARTY-NNN/24]; the [useEffect] of
    lines 18-20 stores it once, after the first render. The random draw is
    the parameter [k] of [generateTicketNumber]: [Math.random()] lies in
    [[0, 1)], so [k] lies in [[0, 999]], which is all the code relies on.

    The theorems: every ticket number matches [GRADPARTY-\d{3}\/24]
    (hence has 16 characters); a strict reader of that format
    ([read_ticket]: the prefix, exactly three digits, the suffix) accepts
    exactly the ticket numbers and gives their draws back, so distinct
    draws give distinct ticket numbers. The bounded
    facts are checked for the 1000 draws by evaluation ([all_draws_ok]). *)

From S2P Require Import Prelude JsRuntime Regex.
From Stdlib Require Import String Ascii ZArith List Lia Bool Arith.
Import ListNotations.
Local Open Scope string_scope.

Module TicketNumber.
Import Js Regex.

(** [`GRADPARTY-${randomNumber}/24`] with
    [randomNumber = k.toString().padStart(3, '0')]. *)
Definition generateTicketNumber (k : Z) : string :=
  let randomNumber := pad_start (num_to_string (Num k)) 3 "0" in
  "GRADPARTY-" ++ randomNumber ++ "/24".

(** The format the spec gives: [GRADPARTY-NNN/24]. *)
Definition ticket_re : re :=
  Cat (Word "GRADPARTY-") (Cat (Rep 3 (Class cls_digit)) (Word "/24")).

(** A strict reader of the format: [GRADPARTY-], exactly three
    decimal digits, [/24], and nothing else; the value of the digits. *)
Definition digit_value (c : ascii) : option Z :=
  if is_dec_digit c then Some (Z.of_nat (nat_of_ascii c) - 48)%Z else None.

Definition read_ticket (t : string) : option Z :=
  match strip_prefix "GRADPARTY-" t with
  | Some (String a (String b (String c rest))) =>
      if String.eqb rest "/24" then
        match digit_value a, digit_value b, digit_value c with
        | Some x, Some y, Some z => Some (100 * x + 10 * y + z)%Z
        | _, _, _ => None
        end
      else None
  | _ => None
  end.

(** The check of one draw, evaluated for all of them below. *)
Definition draw_ok (n : nat) : bool :=
  let t := generateTicketNumber (Z.of_nat n) in
  matches ticket_re t &&
  match read_ticket t with Some z => Z.eqb z (Z.of_nat n) | None => false end.

Lemma all_draws_ok : forallb draw_ok (seq 0 1000) = true.
Proof. vm_compute. reflexivity. Qed.

Lemma draw_ok_Z k : (0 <= k < 1000)%Z -> draw_ok (Z.to_nat k) = true.
Proof.
  intros Hk. pose proof all_draws_ok as H. rewrite forallb_forall in H.
  apply H, in_seq. lia.
Qed.

Lemma draw_ok_spec k :
  (0 <= k < 1000)%Z ->
  matches ticket_re (generateTicketNumber k) = true /\
  read_ticket (generateTicketNumber k) = Some k.
Proof.
  intros Hk. pose proof (draw_ok_Z k Hk) as H. unfold draw_ok in H.
  rewrite Z2Nat.id in H by lia.
  apply andb_true_iff in H as [H1 H2]. split; [exact H1|].
  destruct (read_ticket _); [|discriminate]. apply Z.eqb_eq in H2. now subst.
Qed.

Lemma digit_value_spec c x :
  digit_value c = Some x -> (0 <= x <= 9)%Z /\ c = ascii_of_nat (Z.to_nat (x + 48)).
Proof.
  unfold digit_value, is_dec_digit. destruct (Nat.leb_spec 48 (nat_of_ascii c)), (Nat.leb_spec (nat_of_ascii c) 57);
    simpl; try discriminate. intros [= <-]. split; [lia|].
  replace (Z.to_nat (Z.of_nat (nat_of_ascii c) - 48 + 48)) with (nat_of_ascii c) by lia.
  now rewrite ascii_nat_embedding.
Qed.

(** What the reader accepts: the prefix, three digits of values
    [x], [y], [z], the suffix. *)
Lemma read_ticket_shape t k :
  read_ticket t = Some k ->
  exists x y z, (0 <= x <= 9)%Z /\ (0 <= y <= 9)%Z /\ (0 <= z <= 9)%Z /\ k = (100 * x + 10 * y + z)%Z /\
    t = ("GRADPARTY-" ++ String (ascii_of_nat (Z.to_nat (x + 48))) (String (ascii_of_nat (Z.to_nat (y + 48)))
           (String (ascii_of_nat (Z.to_nat (z + 48))) "/24")))%string.
Proof.
  unfold read_ticket. destruct (strip_prefix "GRADPARTY-" t) as [[|a [|b [|c rest]]]|] eqn:E; try discriminate.
  destruct (String.eqb_spec rest "/24") as [->|]; [|discriminate].
  destruct (digit_value a) as [x|] eqn:Ea, (digit_value b) as [y|] eqn:Eb, (digit_value c) as [z|] eqn:Ec;
    try discriminate.
  intros [= <-]. apply digit_value_spec in Ea as [Hx ->], Eb as [Hy ->], Ec as [Hz ->].
  exists x, y, z. repeat split; try lia. now apply strip_prefix_app.
Qed.

(** The reader reads at most one string to each value. *)
Lemma read_ticket_inj t1 t2 k : read_ticket t1 = Some k -> read_ticket t2 = Some k -> t1 = t2.
Proof.
  intros H1 H2. apply read_ticket_shape in H1 as (x1 & y1 & z1 & ? & ? & ? & -> & ->).
  apply read_ticket_shape in H2 as (x2 & y2 & z2 & ? & ? & ? & E & ->).
  assert (x1 = x2 /\ y1 = y2 /\ z1 = z2) as (-> & -> & ->) by lia. reflexivity.
Qed.

Lemma read_ticket_range t k : read_ticket t = Some k -> (0 <= k < 1000)%Z.
Proof. intros H. apply read_ticket_shape in H as (x & y & z & ? & ? & ? & -> & _). lia. Qed.

(** C22: every ticket number the form can generate has the format
    [GRADPARTY-NNN/24] with three decimal digits, and 16 characters. *)
Theorem ticket_number_format k :
  (0 <= k < 1000)%Z ->
  in_re ticket_re (generateTicketNumber k) /\ String.length (generateTicketNumber k) = 16.
Proof.
  intros Hk. destruct (draw_ok_spec k Hk) as [H _].
  apply matches_correct in H. split; [exact H|].
  destruct (len_sound _ _ H) as [A B]. specialize (B 16 eq_refl).
  change (min_len ticket_re) with 16 in A. lia.
Qed.

(** C21: the ticket numbers are exactly the strings of the format
    [GRADPARTY-NNN/24] read strictly: [read_ticket t = Some k] holds
    exactly when [k] is a draw and [t] is its ticket number. Printing
    then reading gives the draw back, and every string the reader
    accepts is printed from its value, so the padding to three zeros is
    pinned. *)
Theorem ticket_number_roundtrip t k :
  read_ticket t = Some k <-> ((0 <= k < 1000)%Z /\ generateTicketNumber k = t).
Proof.
  split.
  - intros H. pose proof (read_ticket_range t k H) as Hk. split; [exact Hk|].
    apply (read_ticket_inj _ _ k); [exact (proj2 (draw_ok_spec k Hk)) | exact H].
  - intros [Hk <-]. exact (proj2 (draw_ok_spec k Hk)).
Qed.

Corollary ticket_number_injective k1 k2 :
  (0 <= k1 < 1000)%Z -> (0 <= k2 < 1000)%Z ->
  generateTicketNumber k1 = generateTicketNumber k2 -> k1 = k2.
Proof.
  intros H1 H2 E. pose proof (proj2 (draw_ok_spec k1 H1)) as R1.
  rewrite E, (proj2 (draw_ok_spec k2 H2)) in R1. now injection R1.
Qed.

Lemma ticket_number_format_witness :
  in_re ticket_re (generateTicketNumber 7) /\ String.length (generateTicketNumber 7) = 16.
Proof. apply ticket_number_format. lia. Defined.

Lemma ticket_number_roundtrip_witness :
  read_ticket "GRADPARTY-007/24" = Some 7%Z /\ generateTicketNumber 7 = "GRADPARTY-007/24".
Proof.
  split; [|reflexivity].
  apply (proj2 (ticket_number_roundtrip "GRADPARTY-007/24" 7)). split; [lia | reflexivity].
Defined.

End TicketNumber.
