(* ===== verification/FormState.v ===== *)
(** * The state of [FormPage]

    src/pages/buy-ticket.tsx, lines 5-16, declares nine [useState] hooks;
    [State] has one field per hook, with the hook's name, and
    [initial_state] their initial values. A person record is a JavaScript
    object: its own properties in insertion order ([Obj]), because the
    handler of line 49 builds it with a spread and a computed key, so a
    record may miss a key or hold the keys in another order than the
    literal of line 39. The per-person array is sparse ([slot]).
    [totalAmount] is the derived value of line 122. *)

From S2P Require Import Prelude JsRuntime.
From Stdlib Require Import String Ascii ZArith List Lia Bool.
Import ListNotations.
Local Open Scope string_scope.

Module FormState.
Import Js.

(** The keys [handlePersonDetailsChange] is called with (lines 216,
    229, 242). *)
Inductive Field := name | email | phone.

Definition Field_eq_dec (f g : Field) : {f = g} + {f <> g}.
Proof. decide equality. Defined.

Definition field_eqb (f g : Field) : bool := if Field_eq_dec f g then true else false.

(** A person object: its own properties, in insertion order. *)
Definition Obj := list (Field * string).

(** [o[f]]: [None] is [undefined]. *)
Fixpoint obj_get (o : Obj) (f : Field) : option string :=
  match o with
  | [] => None
  | (g, v) :: o' => if field_eqb f g then Some v else obj_get o' f
  end.

(** [{ ...o, [f]: v }]: an existing key keeps its position, a new key
    comes last. *)
Fixpoint obj_set (o : Obj) (f : Field) (v : string) : Obj :=
  match o with
  | [] => [(f, v)]
  | (g, w) :: o' => if field_eqb f g then (g, v) :: o' else (g, w) :: obj_set o' f v
  end.

(** [{ name: '', email: '', phone: '' }], line 39. *)
Definition blank_person : Obj := [(name, ""); (email, ""); (phone, "")].

(** A file chosen in the file input. *)
Record File := mkFile { file_name : string }.

Record State := mkState {
  ticketType : string;
  amount : Z;
  numPersons : JSNum;
  showQrCode : bool;
  transactionImage : option File;
  formSubmitted : bool;
  errors : list string;
  personDetails : list (slot Obj);
  ticketNumber : string
}.

(** The labels of the two [<option>]s of the ticket-type select
    (lines 179-180). *)
Definition lonely : string := "Lonely at the top".
Definition bestie : string := "Bestie and I".
Definition ticket_options : list string := [lonely; bestie].

Definition initial_state : State := {|
  ticketType := lonely;
  amount := 50;
  numPersons := Num 1;
  showQrCode := false;
  transactionImage := None;
  formSubmitted := false;
  errors := [];
  personDetails := [];
  ticketNumber := ""
|}.

(** [const totalAmount = amount * numPersons], recomputed at each render. *)
Definition totalAmount (s : State) : JSNum := js_mul (Num (amount s)) (numPersons s).

(** ** Lemmas on person objects *)

Lemma field_eqb_refl f : field_eqb f f = true.
Proof. unfold field_eqb. destruct (Field_eq_dec f f); congruence. Qed.

Lemma field_eqb_neq f g : f <> g -> field_eqb f g = false.
Proof. unfold field_eqb. destruct (Field_eq_dec f g); congruence. Qed.

#[export] Hint Rewrite field_eqb_refl : booking_rw.

Lemma obj_get_set_eq o f v : obj_get (obj_set o f v) f = Some v.
Proof.
  induction o as [|[g w] o IH]; simpl; rewrite ?field_eqb_refl; [reflexivity|].
  destruct (field_eqb f g) eqn:E; simpl; [now rewrite E | now rewrite E].
Qed.

Lemma obj_get_set_neq o f g v : f <> g -> obj_get (obj_set o f v) g = obj_get o g.
Proof.
  intros Hne. induction o as [|[h w] o IH]; simpl.
  - now rewrite field_eqb_neq by congruence.
  - destruct (field_eqb f h) eqn:E; simpl.
    + unfold field_eqb in E. destruct (Field_eq_dec f h); [subst|discriminate].
      now rewrite field_eqb_neq by congruence.
    + now rewrite IH.
Qed.

End FormState.
