(* ===== verification/Json.v ===== *)
(** * [JSON.stringify(personDetails)] and its decoding

    src/pages/buy-ticket.tsx, line 75, sends the persons as
    [JSON.stringify(personDetails)]. This file models the serialization
    of ECMAScript (SerializeJSONArray, SerializeJSONObject,
    QuoteJSONString) for the values the array holds: a hole and
    [undefined] print as [null], a person object prints its own keys in
    insertion order, and a string is quoted with the escapes of
    QuoteJSONString (two-character escapes, [\u00XX] with lower-case hex
    digits for the other control characters). No whitespace is emitted.

    The receiving side is modelled by a decoder of the JSON grammar (no
    whitespace): [parse_value] and its two loops run on fuel. The
    theorems: a fuel of twice the input length plus one never runs out
    ([parse_value_terminates]), more fuel never changes a result, and
    decoding the serialization of a roster gives back every person with
    its keys in order and [null] for holes and [undefined]
    ([parse_json_stringify]). *)

From S2P Require Import Prelude JsRuntime FormState.
From Stdlib Require Import String Ascii List Lia Bool Arith.
Import ListNotations.
Local Open Scope string_scope.

Module Json.
Import Js FormState.

Definition dq : ascii := ascii_of_nat 34.
Definition bs : ascii := ascii_of_nat 92.

(** ** Serialization *)

(** A hexadecimal digit of UnicodeEscape, lower case. *)
Definition hex_digit (n : nat) : ascii :=
  if Nat.ltb n 10 then ascii_of_nat (48 + n) else ascii_of_nat (87 + n).

(** QuoteJSONString on one code unit. *)
Definition escape_char (c : ascii) : string :=
  let n := nat_of_ascii c in
  if Nat.eqb n 8 then String bs "b"
  else if Nat.eqb n 9 then String bs "t"
  else if Nat.eqb n 10 then String bs "n"
  else if Nat.eqb n 12 then String bs "f"
  else if Nat.eqb n 13 then String bs "r"
  else if Nat.eqb n 34 then String bs (String dq EmptyString)
  else if Nat.eqb n 92 then String bs (String bs EmptyString)
  else if Nat.ltb n 32 then
    String bs ("u00" ++ String (hex_digit (n / 16)) (String (hex_digit (n mod 16)) EmptyString))
  else String c EmptyString.

Fixpoint quote_body (s : string) : string :=
  match s with
  | EmptyString => EmptyString
  | String c s' => escape_char c ++ quote_body s'
  end.

Definition quote_json_string (s : string) : string :=
  String dq (quote_body s ++ String dq EmptyString).

(** The property names of a person object. *)
Definition field_key (f : Field) : string :=
  match f with
  | name => "name"
  | email => "email"
  | phone => "phone"
  end.

(** The elements joined by a separator, as the serialization does. *)
Fixpoint join (sep : string) (l : list string) : string :=
  match l with
  | [] => EmptyString
  | [x] => x
  | x :: l' => x ++ sep ++ join sep l'
  end.

Definition serialize_property (kv : Field * string) : string :=
  quote_json_string (field_key (fst kv)) ++ ":" ++ quote_json_string (snd kv).

(** SerializeJSONObject: the own keys in insertion order. *)
Definition serialize_object (o : Obj) : string :=
  "{" ++ join "," (map serialize_property o) ++ "}".

(** SerializeJSONProperty of an element: [undefined] (also read from a
    hole) prints as [null] inside an array. *)
Definition serialize_slot (x : slot Obj) : string :=
  match x with
  | Val o => serialize_object o
  | _ => "null"
  end.

(** [JSON.stringify(personDetails)]: SerializeJSONArray. *)
Definition stringify (pd : list (slot Obj)) : string :=
  "[" ++ join "," (map serialize_slot pd) ++ "]".

(** ** Decoding *)

Inductive json :=
| JNull
| JStr (s : string)
| JObj (members : list (string * json))
| JArr (elems : list json).

(** The outcome of a parser with fuel: a value and the rest of the
    input, a syntax error, or the fuel exhausted. *)
Inductive result (A : Type) := Done (a : A) (rest : string) | Fail | OutOfFuel.
Arguments Done {A} a rest. Arguments Fail {A}. Arguments OutOfFuel {A}.

Definition hex_value (c : ascii) : option nat :=
  let n := nat_of_ascii c in
  if Nat.leb 48 n && Nat.leb n 57 then Some (n - 48)
  else if Nat.leb 97 n && Nat.leb n 102 then Some (n - 87)
  else if Nat.leb 65 n && Nat.leb n 70 then Some (n - 55)
  else None.

(** [\uXXXX] with a code unit below 256. *)
Definition hex4 (a b c d : ascii) : option ascii :=
  match hex_value a, hex_value b, hex_value c, hex_value d with
  | Some 0, Some 0, Some h, Some l => Some (ascii_of_nat (16 * h + l))
  | _, _, _, _ => None
  end.

Definition simple_escape (e : ascii) : option ascii :=
  let n := nat_of_ascii e in
  if Nat.eqb n 34 then Some dq
  else if Nat.eqb n 92 then Some bs
  else if Nat.eqb n 47 then Some "/"%char
  else if Nat.eqb n 98 then Some (ascii_of_nat 8)
  else if Nat.eqb n 102 then Some (ascii_of_nat 12)
  else if Nat.eqb n 110 then Some (ascii_of_nat 10)
  else if Nat.eqb n 114 then Some (ascii_of_nat 13)
  else if Nat.eqb n 116 then Some (ascii_of_nat 9)
  else None.

Definition cons_fst (c : ascii) (p : string * string) : string * string :=
  (String c (fst p), snd p).

(** The characters of a string literal after its opening quote, up to
    and without the closing quote; raw control characters are refused. *)
Fixpoint parse_chars (s : string) : option (string * string) :=
  match s with
  | EmptyString => None
  | String c r =>
      if Ascii.eqb c dq then Some (EmptyString, r)
      else if Ascii.eqb c bs then
        match r with
        | EmptyString => None
        | String e r1 =>
            if Ascii.eqb e "u" then
              match r1 with
              | String h1 (String h2 (String h3 (String h4 r2))) =>
                  match hex4 h1 h2 h3 h4 with
                  | Some d => option_map (cons_fst d) (parse_chars r2)
                  | None => None
                  end
              | _ => None
              end
            else
              match simple_escape e with
              | Some d => option_map (cons_fst d) (parse_chars r1)
              | None => None
              end
        end
      else if Nat.ltb (nat_of_ascii c) 32 then None
      else option_map (cons_fst c) (parse_chars r)
  end.

Definition map_result {A B} (f : A -> B) (r : result A) : result B :=
  match r with
  | Done a rest => Done (f a) rest
  | Fail => Fail
  | OutOfFuel => OutOfFuel
  end.

Fixpoint parse_value (fuel : nat) (s : string) {struct fuel} : result json :=
  match fuel with
  | O => OutOfFuel
  | S f =>
      match s with
      | EmptyString => Fail
      | String c r =>
          if Ascii.eqb c dq then
            match parse_chars r with Some (x, r') => Done (JStr x) r' | None => Fail end
          else if Ascii.eqb c "n" then
            match strip_prefix "ull" r with Some r' => Done JNull r' | None => Fail end
          else if Ascii.eqb c "{" then
            match r with
            | String d r' => if Ascii.eqb d "}" then Done (JObj []) r'
                             else map_result JObj (parse_members f r)
            | EmptyString => Fail
            end
          else if Ascii.eqb c "[" then
            match r with
            | String d r' => if Ascii.eqb d "]" then Done (JArr []) r'
                             else map_result JArr (parse_elems f r)
            | EmptyString => Fail
            end
          else Fail
      end
  end
with parse_members (fuel : nat) (s : string) {struct fuel} : result (list (string * json)) :=
  match fuel with
  | O => OutOfFuel
  | S f =>
      match s with
      | String c r =>
          if Ascii.eqb c dq then
            match parse_chars r with
            | Some (k, String col r1) =>
                if Ascii.eqb col ":" then
                  match parse_value f r1 with
                  | Done v (String d r2) =>
                      if Ascii.eqb d "," then map_result (cons (k, v)) (parse_members f r2)
                      else if Ascii.eqb d "}" then Done [(k, v)] r2 else Fail
                  | Done _ EmptyString => Fail
                  | Fail => Fail
                  | OutOfFuel => OutOfFuel
                  end
                else Fail
            | _ => Fail
            end
          else Fail
      | EmptyString => Fail
      end
  end
with parse_elems (fuel : nat) (s : string) {struct fuel} : result (list json) :=
  match fuel with
  | O => OutOfFuel
  | S f =>
      match parse_value f s with
      | Done v (String d r) =>
          if Ascii.eqb d "," then map_result (cons v) (parse_elems f r)
          else if Ascii.eqb d "]" then Done [v] r else Fail
      | Done _ EmptyString => Fail
      | Fail => Fail
      | OutOfFuel => OutOfFuel
      end
  end.

(** A whole text is one value; the fuel [2 * length + 1] is enough
    ([parse_value_terminates]). *)
Definition parse_json (s : string) : option json :=
  match parse_value (S (2 * String.length s)) s with
  | Done v EmptyString => Some v
  | _ => None
  end.

(** What the decoder gives back for a person and for an element. *)
Definition obj_json (o : Obj) : json :=
  JObj (map (fun kv => (field_key (fst kv), JStr (snd kv))) o).

Definition slot_json (x : slot Obj) : json :=
  match x with
  | Val o => obj_json o
  | _ => JNull
  end.

(** ** Lemmas on strings *)

Lemma hex4_escape n :
  n < 32 -> hex4 "0" "0" (hex_digit (n / 16)) (hex_digit (n mod 16)) = Some (ascii_of_nat n).
Proof.
  intros Hn. do 32 (destruct n as [|n]; [reflexivity|]). lia.
Qed.

Lemma ascii_eqb_of_nat n m :
  n < 256 -> m < 256 -> Ascii.eqb (ascii_of_nat n) (ascii_of_nat m) = Nat.eqb n m.
Proof.
  intros Hn Hm. destruct (Ascii.eqb_spec (ascii_of_nat n) (ascii_of_nat m)) as [E|E];
    destruct (Nat.eqb_spec n m) as [F|F]; subst; auto.
  apply (f_equal nat_of_ascii) in E. rewrite !nat_ascii_embedding in E by lia. contradiction.
Qed.

Lemma parse_chars_escape c t :
  parse_chars (escape_char c ++ t) = option_map (cons_fst c) (parse_chars t).
Proof.
  rewrite <- (ascii_nat_embedding c). unfold escape_char. rewrite nat_ascii_embedding by apply nat_ascii_bounded.
  generalize (nat_ascii_bounded c). generalize (nat_of_ascii c) as n. intros n Hn.
  repeat match goal with
         | |- context [Nat.eqb n ?k] => destruct (Nat.eqb_spec n k) as [->|?]; [reflexivity|]
         end.
  destruct (Nat.ltb_spec n 32) as [L|L].
  - cbn -[hex4 hex_digit Nat.div Nat.modulo]. rewrite hex4_escape by exact L. reflexivity.
  - simpl. unfold dq, bs. rewrite !ascii_eqb_of_nat by lia.
    repeat match goal with
           | |- context [Nat.eqb n ?k] => destruct (Nat.eqb_spec n k) as [?|_]; [lia|]
           end.
    rewrite nat_ascii_embedding by exact Hn. destruct (Nat.ltb_spec n 32); [lia|reflexivity].
Qed.

Lemma parse_chars_quote x rest :
  parse_chars (quote_body x ++ String dq rest) = Some (x, rest).
Proof.
  induction x as [|c x IH]; [reflexivity|].
  simpl. rewrite string_app_assoc, parse_chars_escape, IH. reflexivity.
Qed.
Lemma parse_chars_shorter s x r : parse_chars s = Some (x, r) -> String.length r < String.length s.
Proof.
  revert x r. induction s as [n IHn] using (induction_ltof1 _ String.length); intros x r.
  unfold ltof in IHn. destruct n as [|c s]; simpl; [discriminate|].
  assert (Hsub : forall t d, String.length t < S (String.length s) ->
            option_map (cons_fst d) (parse_chars t) = Some (x, r) -> String.length r < String.length t).
  { intros t d Ht H. destruct (parse_chars t) as [[y z]|] eqn:E; [|discriminate].
    injection H as _ <-. exact (IHn t Ht _ _ E). }
  destruct (Ascii.eqb c dq); [intros [= _ <-]; lia|].
  destruct (Ascii.eqb c bs).
  - destruct s as [|e r1]; [discriminate|].
    destruct (Ascii.eqb e "u").
    + destruct r1 as [|h1 [|h2 [|h3 [|h4 r2]]]]; try discriminate.
      destruct (hex4 h1 h2 h3 h4); [|discriminate].
      intros H. apply Hsub in H; simpl in *; lia.
    + destruct (simple_escape e); [|discriminate].
      intros H. apply Hsub in H; simpl in *; lia.
  - destruct (Nat.ltb (nat_of_ascii c) 32); [discriminate|].
    intros H. apply Hsub in H; simpl in *; lia.
Qed.

(** ** Termination of the decoder *)

(** Progress of a parser on [s]: it does not run out of fuel, and what
    it returns is a strict suffix of [s]. *)
Definition progress {A} (res : result A) (s : string) : Prop :=
  match res with
  | Done _ rest => String.length rest < String.length s
  | Fail => True
  | OutOfFuel => False
  end.

Lemma progress_map {A B} (f : A -> B) res s : progress (map_result f res) s = progress res s.
Proof. now destruct res. Qed.

Lemma progress_weaken {A} (res : result A) s t :
  progress res s -> String.length s <= String.length t -> progress res t.
Proof. destruct res; simpl; auto; lia. Qed.

Definition fuel_enough (n : nat) : Prop :=
  (forall s, 2 * String.length s < n -> progress (parse_value n s) s) /\
  (forall s, 2 * String.length s < n -> progress (parse_members n s) s) /\
  (forall s, 2 * String.length s + 1 < n -> progress (parse_elems n s) s).

Lemma fuel_enough_S n : fuel_enough n -> fuel_enough (S n).
Proof.
  intros (IHv & IHm & IHe). split; [|split].
  - intros [|c r] Hs; cbn [parse_value parse_members]; [exact I|]. simpl in Hs.
    destruct (Ascii.eqb c dq).
    { destruct (parse_chars r) as [[x r']|] eqn:E; simpl; auto.
      apply parse_chars_shorter in E. lia. }
    destruct (Ascii.eqb c "n").
    { destruct (strip_prefix "ull" r) as [r'|] eqn:E; simpl; auto.
      apply strip_prefix_length in E. simpl in E. lia. }
    destruct (Ascii.eqb c "{").
    { destruct r as [|d r']; simpl; auto. destruct (Ascii.eqb d "}"); simpl; [lia|].
      rewrite progress_map. apply progress_weaken with (String d r'); [apply IHm|]; simpl in *; lia. }
    destruct (Ascii.eqb c "["); [|exact I].
    destruct r as [|d r']; simpl; auto. destruct (Ascii.eqb d "]"); simpl; [lia|].
    rewrite progress_map. apply progress_weaken with (String d r'); [apply IHe|]; simpl in *; lia.
  - intros [|c r] Hs; cbn [parse_value parse_members]; [exact I|]. simpl in Hs.
    destruct (Ascii.eqb c dq); [|exact I].
    destruct (parse_chars r) as [[k [|col r1]]|] eqn:E; simpl; auto.
    apply parse_chars_shorter in E. simpl in E.
    destruct (Ascii.eqb col ":"); [|exact I].
    assert (Hv := IHv r1 ltac:(lia)).
    destruct (parse_value n r1) as [v [|d r2]| |]; simpl in *; auto.
    destruct (Ascii.eqb d ","); [|destruct (Ascii.eqb d "}"); simpl; auto; lia].
    rewrite progress_map. apply progress_weaken with r2; [apply IHm|]; simpl; lia.
  - intros s Hs; simpl.
    assert (Hv := IHv s ltac:(lia)).
    destruct (parse_value n s) as [v [|d r]| |]; simpl in *; auto.
    destruct (Ascii.eqb d ","); [|destruct (Ascii.eqb d "]"); simpl; auto; lia].
    rewrite progress_map. apply progress_weaken with r; [apply IHe|]; lia.
Qed.

Lemma fuel_enough_all n : fuel_enough n.
Proof.
  induction n as [|n IH]; [|now apply fuel_enough_S].
  split; [|split]; intros; lia.
Qed.

Definition fuel_stable (n : nat) : Prop :=
  forall m, n <= m ->
  (forall s, parse_value n s <> OutOfFuel -> parse_value m s = parse_value n s) /\
  (forall s, parse_members n s <> OutOfFuel -> parse_members m s = parse_members n s) /\
  (forall s, parse_elems n s <> OutOfFuel -> parse_elems m s = parse_elems n s).

Ltac inner_fuel H := intros E; rewrite E in H; apply H; reflexivity.

Lemma fuel_stable_S n : fuel_stable n -> fuel_stable (S n).
Proof.
  intros IH [|m] Hm; [lia|]. destruct (IH m ltac:(lia)) as (IHv & IHm & IHe).
  split; [|split].
  - intros [|c r] H; cbn [parse_value] in *; [reflexivity|].
    destruct (Ascii.eqb c dq); [reflexivity|]. destruct (Ascii.eqb c "n"); [reflexivity|].
    destruct (Ascii.eqb c "{").
    { destruct r as [|d r']; [reflexivity|]. destruct (Ascii.eqb d "}"); [reflexivity|].
      rewrite IHm; [reflexivity | inner_fuel H]. }
    destruct (Ascii.eqb c "["); [|reflexivity].
    destruct r as [|d r']; [reflexivity|]. destruct (Ascii.eqb d "]"); [reflexivity|].
    rewrite IHe; [reflexivity | inner_fuel H].
  - intros [|c r] H; cbn [parse_members] in *; [reflexivity|].
    destruct (Ascii.eqb c dq); [|reflexivity].
    destruct (parse_chars r) as [[k [|col r1]]|]; try reflexivity.
    destruct (Ascii.eqb col ":"); [|reflexivity].
    rewrite IHv by inner_fuel H.
    destruct (parse_value n r1) as [v [|d r2]| |]; try reflexivity.
    destruct (Ascii.eqb d ","); [|reflexivity].
    rewrite IHm; [reflexivity | inner_fuel H].
  - intros s H; cbn [parse_elems] in *.
    rewrite IHv by inner_fuel H.
    destruct (parse_value n s) as [v [|d r]| |]; try reflexivity.
    destruct (Ascii.eqb d ","); [|reflexivity].
    rewrite IHe; [reflexivity | inner_fuel H].
Qed.

Lemma fuel_stable_all n : fuel_stable n.
Proof.
  induction n as [|n IH]; [|now apply fuel_stable_S].
  intros m _. split; [|split]; intros s H; contradiction H; reflexivity.
Qed.

(** The decoder terminates: on an input of length [l], a fuel
    above [2 * l] never runs out (every call consumes a character or
    hands a strictly shorter input to a loop that does), and any larger
    fuel gives the same result, so the fuel of [parse_json] never decides
    the outcome. *)
Theorem parse_value_terminates s n :
  2 * String.length s < n ->
  parse_value n s <> OutOfFuel /\ forall m, n <= m -> parse_value m s = parse_value n s.
Proof.
  intros Hn. assert (Hne : parse_value n s <> OutOfFuel).
  { pose proof (proj1 (fuel_enough_all n) s Hn) as P. intros E. now rewrite E in P. }
  split; [exact Hne|]. intros m Hm. now apply (fuel_stable_all n m Hm).
Qed.

(** ** Decoding what [stringify] prints *)

Lemma quote_app x rest : quote_json_string x ++ rest = String dq (quote_body x ++ String dq rest).
Proof. unfold quote_json_string. simpl. now rewrite string_app_assoc. Qed.

Lemma parse_value_quote n x rest : parse_value (S n) (quote_json_string x ++ rest) = Done (JStr x) rest.
Proof. rewrite quote_app. cbn [parse_value]. simpl Ascii.eqb. now rewrite parse_chars_quote. Qed.

Lemma serialize_property_app f v t :
  serialize_property (f, v) ++ t =
  String dq (quote_body (field_key f) ++ String dq (String ":" (quote_json_string v ++ t))).
Proof. unfold serialize_property. simpl fst; simpl snd. now rewrite !string_app_assoc, quote_app. Qed.

Lemma join_cons {A} (g : A -> string) x l t :
  join "," (map g (x :: l)) ++ t =
  g x ++ match l with [] => t | _ => String "," (join "," (map g l) ++ t) end.
Proof. destruct l; simpl; [reflexivity|]. now rewrite string_app_assoc. Qed.

Lemma parse_members_print o rest n :
  o <> [] -> length o < n ->
  parse_members n (join "," (map serialize_property o) ++ String "}" rest) =
  Done (map (fun kv => (field_key (fst kv), JStr (snd kv))) o) rest.
Proof.
  revert n. induction o as [|[f v] o IH]; intros n Hne Hn; [congruence|].
  destruct n as [|n]; [simpl in Hn; lia|].
  rewrite join_cons, serialize_property_app. cbn [parse_members]. simpl Ascii.eqb.
  rewrite parse_chars_quote. simpl Ascii.eqb. destruct n as [|n]; [simpl in Hn; lia|].
  rewrite parse_value_quote. destruct o as [|kv o]; simpl Ascii.eqb; [reflexivity|].
  rewrite IH; [reflexivity | discriminate | simpl in *; lia].
Qed.

Definition slot_size (x : slot Obj) : nat :=
  match x with Val o => length o | _ => 0 end.

Lemma serialize_object_app o t :
  serialize_object o ++ t = String "{" (join "," (map serialize_property o) ++ String "}" t).
Proof. unfold serialize_object. now rewrite !string_app_assoc. Qed.

Lemma parse_value_slot x rest n :
  slot_size x + 1 < n -> parse_value n (serialize_slot x ++ rest) = Done (slot_json x) rest.
Proof.
  intros Hn. destruct n as [|n]; [lia|].
  destruct x as [| |o]; try reflexivity.
  simpl serialize_slot. rewrite serialize_object_app. simpl in Hn.
  destruct o as [|[f v] o]; [reflexivity|].
  rewrite join_cons, serialize_property_app. cbn [parse_value]. simpl Ascii.eqb. cbv beta iota.
  rewrite <- serialize_property_app, <- join_cons.
  rewrite parse_members_print; [reflexivity | discriminate | simpl in *; lia].
Qed.

Definition max_slot (pd : list (slot Obj)) : nat := list_max (map slot_size pd).

Lemma max_slot_cons x pd : max_slot (x :: pd) = Nat.max (slot_size x) (max_slot pd).
Proof. reflexivity. Qed.

Lemma parse_elems_print pd rest n :
  pd <> [] -> length pd + max_slot pd + 2 <= n ->
  parse_elems n (join "," (map serialize_slot pd) ++ String "]" rest) = Done (map slot_json pd) rest.
Proof.
  revert n. induction pd as [|x pd IH]; intros n Hne Hn; [congruence|].
  rewrite max_slot_cons in Hn. cbn [length] in Hn.
  destruct n as [|n]; [lia|]. rewrite join_cons. cbn [parse_elems].
  rewrite parse_value_slot by lia.
  destruct pd as [|y pd]; simpl Ascii.eqb; [reflexivity|].
  rewrite IH; [reflexivity | discriminate | cbn [length] in *; lia].
Qed.

Lemma parse_value_array n c r :
  c <> "]"%char ->
  parse_value (S n) (String "[" (String c r)) = map_result JArr (parse_elems n (String c r)).
Proof.
  intros Hc. cbn [parse_value]. simpl Ascii.eqb. cbv beta iota.
  destruct (Ascii.eqb_spec c "]"); [contradiction | reflexivity].
Qed.

Lemma parse_value_stringify pd n :
  length pd + max_slot pd + 3 <= n ->
  parse_value n (stringify pd) = Done (JArr (map slot_json pd)) EmptyString.
Proof.
  intros Hn. destruct n as [|n]; [lia|].
  change (stringify pd) with (String "[" (join "," (map serialize_slot pd) ++ String "]" EmptyString)).
  destruct pd as [|x pd]; [reflexivity|].
  assert (Hhead : exists c r, join "," (map serialize_slot (x :: pd)) ++ String "]" EmptyString
                              = String c r /\ c <> "]"%char).
  { rewrite join_cons. destruct x as [| |o]; simpl serialize_slot;
      try rewrite serialize_object_app; eexists _, _; (split; [reflexivity | discriminate]). }
  destruct Hhead as (c & r & Hr & Hc). rewrite Hr, parse_value_array by exact Hc. rewrite <- Hr.
  rewrite parse_elems_print; [reflexivity | discriminate | cbn [length] in *; lia].
Qed.

Lemma decode_stringify pd : parse_json (stringify pd) = Some (JArr (map slot_json pd)).
Proof.
  unfold parse_json.
  set (N := S (2 * String.length (stringify pd))).
  destruct (parse_value_terminates (stringify pd) N ltac:(lia)) as [_ Hst].
  rewrite <- (Hst (Nat.max N (length pd + max_slot pd + 3))) by lia.
  rewrite parse_value_stringify by lia. reflexivity.
Qed.

(** C31: decoding [JSON.stringify(personDetails)] gives back the array:
    every person object with its keys in insertion order and its string
    values (whatever characters they hold), and [null] for a hole or an
    [undefined] element. *)
Theorem parse_json_stringify pd : parse_json (stringify pd) = Some (JArr (map slot_json pd)).
Proof. exact (decode_stringify pd). Qed.

(** ** Concrete inputs *)

Lemma parse_value_terminates_witness :
  parse_value 100 (stringify [Val blank_person]) <> OutOfFuel.
Proof.
  exact (proj1 (parse_value_terminates (stringify [Val blank_person]) 100 ltac:(vm_compute; lia))).
Defined.

End Json.
