(* ===== verification/Validation.v ===== *)
(** * [validateForm]

    src/pages/buy-ticket.tsx, lines 95-120. [personDetails.forEach] visits
    every element of the array that is not a hole, in index order, and
    pushes up to five messages per person (name, e-mail required, e-mail
    invalid, phone required, phone invalid); the screenshot message comes
    last. JavaScript truthiness decides "required": [undefined] and [""]
    are missing. An element that is [undefined] (not a hole) makes
    [person.name] throw a [TypeError], which aborts the whole function.

    The theorems: the result is empty exactly when the screenshot is there
    and every visited person has a name, a valid e-mail and a valid phone;
    there are at most three messages per person plus one; the screenshot
    message is last when it is missing and absent otherwise; the function
    throws exactly when the array holds an [undefined] element. *)

From S2P Require Import Prelude JsRuntime Regex Patterns FormState.
From Stdlib Require Import String Ascii ZArith List Lia Bool.
Import ListNotations.

Module Validation.
Import Js Regex Patterns FormState.

(** JavaScript truthiness of a string property. *)
Definition truthy (v : option string) : bool :=
  match v with
  | Some (String _ _) => true
  | _ => false
  end.

(** [v && !re.test(v)] *)
Definition invalid_by (test : string -> bool) (v : option string) : bool :=
  match v with
  | Some (String c s) => negb (test (String c s))
  | _ => false
  end.

(** [`${index + 1}`] *)
Definition person_label (index : nat) : string := num_to_string (Num (Z.of_nat index + 1)).

Definition name_required (i : nat) := ("Name of Person " ++ person_label i ++ " is required.")%string.
Definition email_required (i : nat) := ("Email Address of Person " ++ person_label i ++ " is required.")%string.
Definition email_invalid (i : nat) := ("Email Address of Person " ++ person_label i ++ " is invalid.")%string.
Definition phone_required (i : nat) := ("Phone Number of Person " ++ person_label i ++ " is required.")%string.
Definition phone_invalid (i : nat) := ("Phone Number of Person " ++ person_label i ++ " is invalid.")%string.
Definition screenshot_required := "Transaction screenshot is required."%string.

Section WithMatcher.
Context `{Matcher}.

(** The body of the [forEach] callback, lines 98-114. *)
Definition person_errors (index : nat) (p : Obj) : list string :=
  (if truthy (obj_get p name) then [] else [name_required index]) ++
  (if truthy (obj_get p email) then [] else [email_required index]) ++
  (if invalid_by email_test (obj_get p email) then [email_invalid index] else []) ++
  (if truthy (obj_get p phone) then [] else [phone_required index]) ++
  (if invalid_by phone_test (obj_get p phone) then [phone_invalid index] else []).

(** [personDetails.forEach(...)]: holes are skipped, an [undefined]
    element throws. *)
Fixpoint validate_persons (index : nat) (l : list (slot Obj)) : completion (list string) :=
  match l with
  | [] => Normal []
  | Hole :: l' => validate_persons (S index) l'
  | Undef :: _ => Abrupt TypeError
  | Val p :: l' =>
      match validate_persons (S index) l' with
      | Normal errs => Normal (person_errors index p ++ errs)
      | Abrupt e => Abrupt e
      end
  end.

Definition validateForm (s : State) : completion (list string) :=
  match validate_persons 0 (personDetails s) with
  | Normal errs =>
      Normal (errs ++ match transactionImage s with
                      | Some _ => []
                      | None => [screenshot_required]
                      end)
  | Abrupt e => Abrupt e
  end.

(** A person the validation accepts. *)
Definition person_ok (p : Obj) : Prop :=
  truthy (obj_get p name) = true /\
  (exists e, obj_get p email = Some e /\ e <> ""%string /\ email_test e = true) /\
  (exists n, obj_get p phone = Some n /\ n <> ""%string /\ phone_test n = true).

(** ** Lemmas *)

Lemma required_invalid_le test v :
  length ((if truthy v then [] else [tt]) ++ (if invalid_by test v then [tt] else [])) <= 1.
Proof. destruct v as [[|c s]|]; simpl; try destruct (test _); simpl; lia. Qed.

Lemma person_errors_length i p : length (person_errors i p) <= 3.
Proof.
  unfold person_errors. rewrite !length_app.
  pose proof (required_invalid_le email_test (obj_get p email)) as E.
  pose proof (required_invalid_le phone_test (obj_get p phone)) as P.
  rewrite length_app in E, P.
  destruct (truthy (obj_get p name)), (truthy (obj_get p email)),
    (invalid_by email_test _), (truthy (obj_get p phone)), (invalid_by phone_test _);
    simpl in *; lia.
Qed.

Lemma field_ok_iff test v :
  truthy v = true /\ invalid_by test v = false <->
  exists e, v = Some e /\ e <> ""%string /\ test e = true.
Proof.
  destruct v as [[|c s]|]; simpl; split; intros Hv;
    try (destruct Hv as [? ?]; discriminate);
    try (destruct Hv as (e & [= <-] & Hne & _); congruence);
    try (destruct Hv as (e & Hne & _); discriminate).
  - destruct Hv as [_ Ht]. exists (String c s). apply negb_false_iff in Ht.
    repeat split; [discriminate | exact Ht].
  - destruct Hv as (e & [= <-] & _ & Ht). rewrite Ht. auto.
Qed.

Lemma person_errors_nil_iff i p : person_errors i p = [] <-> person_ok p.
Proof.
  unfold person_errors, person_ok. rewrite <- !field_ok_iff.
  destruct (truthy (obj_get p name)), (truthy (obj_get p email)),
    (invalid_by email_test _), (truthy (obj_get p phone)), (invalid_by phone_test _);
    simpl; intuition congruence.
Qed.

(** Visited elements: the objects, and whether an [undefined] is met. *)
Definition no_undef (l : list (slot Obj)) : Prop := ~ In Undef l.

Lemma validate_persons_normal i l :
  no_undef l -> exists errs, validate_persons i l = Normal errs.
Proof.
  revert i. induction l as [|x l IH]; intros i Hl; simpl; [eauto|].
  assert (Hl' : no_undef l) by (intros Hin; apply Hl; now right).
  destruct x as [| |p].
  - apply IH, Hl'.
  - exfalso. apply Hl. now left.
  - destruct (IH (S i) Hl') as [errs ->]. eauto.
Qed.

Lemma validate_persons_abrupt i l e :
  validate_persons i l = Abrupt e -> e = TypeError /\ In Undef l.
Proof.
  revert i. induction l as [|x l IH]; intros i; simpl; [discriminate|].
  destruct x as [| |p].
  - intros H'. destruct (IH _ H'). auto.
  - intros [= <-]. auto.
  - destruct (validate_persons (S i) l) eqn:E; [discriminate|].
    intros [= <-]. destruct (IH _ E). auto.
Qed.

Lemma validate_persons_undef i l :
  In Undef l -> exists e, validate_persons i l = Abrupt e.
Proof.
  revert i. induction l as [|x l IH]; intros i Hin; [destruct Hin|]. simpl.
  destruct Hin as [->|Hin]; [eauto|].
  destruct x as [| |p]; [eauto | eauto|].
  destruct (IH (S i) Hin) as [e ->]. eauto.
Qed.

Lemma validate_persons_length i l errs :
  validate_persons i l = Normal errs -> length errs <= 3 * length l.
Proof.
  revert i errs. induction l as [|x l IH]; intros i errs; simpl.
  - intros [= <-]. simpl. lia.
  - destruct x as [| |p]; [intros H'; specialize (IH _ _ H'); lia | discriminate|].
    destruct (validate_persons (S i) l) eqn:E; [|discriminate].
    intros [= <-]. rewrite length_app. specialize (IH _ _ E).
    pose proof (person_errors_length i p). lia.
Qed.

Lemma validate_persons_nil_iff i l :
  validate_persons i l = Normal [] <-> forall x, In x l -> x = Hole \/ exists p, x = Val p /\ person_ok p.
Proof.
  revert i. induction l as [|x l IH]; intros i; simpl.
  - split; [intros _ x []| reflexivity].
  - destruct x as [| |p].
    + rewrite IH. split; [intros Hall y [<-|Hy]; auto | intros Hall y Hy; auto].
    + split; [discriminate|]. intros Hall. destruct (Hall Undef (or_introl eq_refl)) as [?|(? & ? & _)]; discriminate.
    + destruct (validate_persons (S i) l) eqn:E.
      * split.
        -- intros [= Hp]. apply app_eq_nil in Hp as [Hp ->].
           intros y [<-|Hy]; [right; exists p; split; [reflexivity|]; now apply (person_errors_nil_iff i)|].
           apply (proj1 (IH (S i))); [now rewrite E|exact Hy].
        -- intros Hall. destruct (Hall (Val p) (or_introl eq_refl)) as [?|(q & [= <-] & Hq)]; [discriminate|].
           apply (person_errors_nil_iff i) in Hq. rewrite Hq.
           assert (validate_persons (S i) l = Normal []) as E'
             by (apply IH; intros y Hy; apply Hall; now right).
           rewrite E in E'. now injection E' as ->.
      * split; [discriminate|]. intros Hall.
        assert (validate_persons (S i) l = Normal []) as E'
          by (apply IH; intros y Hy; apply Hall; now right).
        congruence.
Qed.

(** Every message of a visited person is in the result, under its index. *)
Lemma validate_persons_incl j l errs i o :
  validate_persons j l = Normal errs -> nth_error l i = Some (Val o) ->
  incl (person_errors (j + i) o) errs.
Proof.
  revert j i errs. induction l as [|x l IH]; intros j [|i] errs; simpl; try discriminate.
  - intros Hv [= ->]. destruct (validate_persons (S j) l); [|discriminate].
    injection Hv as <-. rewrite Nat.add_0_r. apply incl_appl, incl_refl.
  - intros Hv Hi. replace (j + S i) with (S j + i) by lia.
    destruct x as [| |p]; [exact (IH _ _ _ Hv Hi) | discriminate|].
    destruct (validate_persons (S j) l) as [errs'|] eqn:E; [|discriminate].
    injection Hv as <-. apply incl_appr. exact (IH _ _ _ E Hi).
Qed.

(** ** Theorems *)

Lemma validateForm_nil_spec s :
  validateForm s = Normal [] <->
  transactionImage s <> None /\
  forall x, In x (personDetails s) -> x = Hole \/ exists p, x = Val p /\ person_ok p.
Proof.
  unfold validateForm. rewrite <- (validate_persons_nil_iff 0).
  destruct (validate_persons 0 (personDetails s)) as [errs|e];
    [|split; [intros H'; discriminate H' | intros [_ H']; discriminate H']].
  destruct (transactionImage s) as [f|]; rewrite ?app_nil_r; split.
  - intros H'. split; [discriminate | exact H'].
  - intros [_ H']. exact H'.
  - intros [= H']. apply app_eq_nil in H' as [_ H']. discriminate.
  - intros [H' _]. congruence.
Qed.

(** C2: validation succeeds with no message exactly when the screenshot
    is attached and every element of [personDetails] is a hole or a
    person with a non-empty name, an e-mail the pattern accepts and a
    phone number the pattern accepts. *)
Theorem validateForm_nil_iff s :
  validateForm s = Normal [] <->
  transactionImage s <> None /\
  forall x, In x (personDetails s) -> x = Hole \/ exists p, x = Val p /\ person_ok p.
Proof. exact (validateForm_nil_spec s). Qed.

(** C14: validation returns at most three messages per element of
    [personDetails] plus one: the "required" and "invalid" messages of a
    field exclude each other. *)
Theorem validateForm_length s errs :
  validateForm s = Normal errs -> length errs <= 3 * length (personDetails s) + 1.
Proof.
  unfold validateForm. destruct (validate_persons 0 _) as [es|e] eqn:E; [|discriminate].
  intros [= <-]. rewrite length_app. apply validate_persons_length in E.
  destruct (transactionImage s); simpl; lia.
Qed.

(** C13: validation throws, and then only a [TypeError], exactly when
    [personDetails] holds an [undefined] element. *)
Theorem validateForm_throws_iff s :
  (exists e, validateForm s = Abrupt e) <-> In Undef (personDetails s).
Proof.
  unfold validateForm. split.
  - intros [e He]. destruct (validate_persons 0 _) eqn:E; [discriminate|].
    exact (proj2 (validate_persons_abrupt _ _ _ E)).
  - intros Hin. destruct (validate_persons_undef 0 _ Hin) as [e ->]. eauto.
Qed.

End WithMatcher.

(** ** Concrete inputs *)

(** One blank person and no screenshot: the four messages, in order. *)
Definition one_blank : State := {| initial_state with personDetails := [Val blank_person] |}.

Lemma validateForm_length_witness :
  validateForm one_blank =
    Normal [name_required 0; email_required 0; phone_required 0; screenshot_required] /\
  length [name_required 0; email_required 0; phone_required 0; screenshot_required]
    <= 3 * length (personDetails one_blank) + 1.
Proof.
  split; [vm_compute; reflexivity|].
  apply (validateForm_length one_blank). vm_compute. reflexivity.
Defined.

End Validation.
