(* ===== verification/Handlers.v ===== *)
(** * The event handlers of [FormPage]

    src/pages/buy-ticket.tsx: every handler is a function of the state,
    its React setters applied in the order of the code.
    - [mountEffect]: the [useEffect] of lines 18-20.
    - [handleTicketTypeChange]: lines 29-33.
    - [handleNumPersonsChange]: lines 35-41. [Array(n)] throws a
      [RangeError] for NaN, a negative or a too large [n] after
      [setNumPersons] has been called: the result carries the exception
      and the state with [numPersons] already updated.
    - [handlePersonDetailsChange]: lines 43-51 (spread of the array, spread
      of the object, computed key).
    - [handleTransactionImageChange]: lines 53-59.
    - [toggleQrCode] and [closeModal]: the inline handlers of lines 264
      and 135.
    The theorems give each handler's effect on every field and the fields
    it leaves alone: the ticket type never touches the persons or the
    screenshot; a person edit changes one field of one person. *)

From S2P Require Import Prelude JsRuntime TicketNumber FormState.
From Stdlib Require Import String Ascii ZArith List Lia Bool Arith.
Import ListNotations.

Module Handlers.
Import Js TicketNumber FormState.

Local Open Scope js_scope.

(** [setTicketNumber(generateTicketNumber())] with the draw [k]. *)
Definition mountEffect (k : Z) (s : State) : State :=
  {| s with ticketNumber := generateTicketNumber k |}.

(** The unit price the handler sets: 50 for "Lonely at the top", 80
    for anything else. *)
Definition price (selectedType : string) : Z :=
  if selectedType === lonely then 50 else 80.

Definition handleTicketTypeChange (selectedType : string) (s : State) : State :=
  let s1 := {| s with ticketType := selectedType |} in
  {| s1 with amount := price selectedType |}.

(** The new state, and the exception the handler throws, if any. *)
Definition handleNumPersonsChange (value : string) (s : State) : State * option js_error :=
  let newNumPersons := parseInt value in
  let s1 := {| s with numPersons := newNumPersons |} in
  match array_ctor_len newNumPersons with
  | Some n => ({| s1 with personDetails := repeat (Val blank_person) n |}, None)
  | None => (s1, Some RangeError)
  end.

Definition handlePersonDetailsChange (index : nat) (field : Field) (value : string)
    (s : State) : State :=
  let newPersonDetails := spread (personDetails s) in
  let current := match arr_get newPersonDetails index with Some o => o | None => [] end in
  {| s with personDetails := arr_set newPersonDetails index (obj_set current field value) |}.

(** [e.target.files && e.target.files[0]]: the first chosen file, if any. *)
Definition handleTransactionImageChange (files : list File) (s : State) : State :=
  match files with
  | f :: _ => {| s with transactionImage := Some f |}
  | [] => s
  end.

Definition toggleQrCode (s : State) : State := {| s with showQrCode := negb (showQrCode s) |}.

Definition closeModal (s : State) : State := {| s with formSubmitted := false |}.

(** The fields a user fills in: everything but the modal, QR-code and
    error flags. *)
Definition form_data (s : State) :=
  (ticketType s, amount s, numPersons s, transactionImage s, personDetails s, ticketNumber s).

(** ** Theorems *)

(** Selecting a ticket type sets the type and the unit price that
    goes with it (50 or 80), and changes nothing else: the persons, the
    count and the screenshot are kept. *)
Theorem handleTicketTypeChange_spec v s :
  let s' := handleTicketTypeChange v s in
  ticketType s' = v /\ amount s' = price v /\
  personDetails s' = personDetails s /\ transactionImage s' = transactionImage s /\
  numPersons s' = numPersons s /\ ticketNumber s' = ticketNumber s /\ errors s' = errors s.
Proof. repeat split. Qed.

(** Changing the number of persons to a count [n] in [[0, 2^32 - 1]]
    rebuilds the array as [n] blank records, discarding what was
    entered; any other input (empty, NaN, negative, too large) still
    stores the parsed count but throws a [RangeError] and keeps the old
    records. *)
Lemma handleNumPersonsChange_spec v s :
  numPersons (fst (handleNumPersonsChange v s)) = parseInt v /\
  match array_ctor_len (parseInt v) with
  | Some n => personDetails (fst (handleNumPersonsChange v s)) = repeat (Val blank_person) n /\
              snd (handleNumPersonsChange v s) = None
  | None => personDetails (fst (handleNumPersonsChange v s)) = personDetails s /\
            snd (handleNumPersonsChange v s) = Some RangeError
  end.
Proof.
  unfold handleNumPersonsChange. destruct (array_ctor_len (parseInt v)); simpl; auto.
Qed.

Lemma nth_error_spread {A} (l : list (slot A)) i :
  nth_error (spread l) i = option_map (fun x => match x with Hole => Undef | y => y end) (nth_error l i).
Proof. unfold spread. apply nth_error_map. Qed.

Lemma nth_error_arr_set_same {A} (l : list (slot A)) i v :
  (Z.of_nat i < max_array_length)%Z -> nth_error (arr_set l i v) i = Some (Val v).
Proof.
  intros Hi. unfold arr_set. apply Z.ltb_lt in Hi. rewrite Hi.
  destruct (Nat.ltb_spec i (length l)).
  - rewrite nth_error_app2; rewrite length_firstn; [|lia].
    replace (i - Nat.min i (length l)) with 0 by lia. reflexivity.
  - rewrite nth_error_app2 by lia. rewrite nth_error_app2; rewrite repeat_length; [|lia].
    replace (i - length l - (i - length l)) with 0 by lia. reflexivity.
Qed.

Lemma nth_error_arr_set_other {A} (l : list (slot A)) i j v :
  j <> i -> j < length l -> nth_error (arr_set l i v) j = nth_error l j.
Proof.
  intros Hne Hj. unfold arr_set.
  destruct (Z.of_nat i <? max_array_length)%Z; [|reflexivity].
  destruct (Nat.ltb_spec i (length l)).
  - destruct (Nat.lt_ge_cases j i).
    + rewrite nth_error_app1 by (rewrite length_firstn; lia). rewrite nth_error_firstn. destruct (Nat.ltb_spec j i); [reflexivity | lia].
    + rewrite nth_error_app2 by (rewrite length_firstn; lia). rewrite length_firstn.
      replace (j - Nat.min i (length l)) with (S (j - S i)) by lia. cbn [nth_error].
      rewrite nth_error_skipn. f_equal. lia.
  - rewrite nth_error_app1 by lia. reflexivity.
Qed.

(** C12: editing a field of person [index] (a row the page renders, with
    an array index) makes that person's field the new value, keeps that
    person's other fields, and leaves every other existing person as it
    was (holes become [undefined], as the spread reads them). *)
Theorem handlePersonDetailsChange_spec index f v s :
  (Z.of_nat index < max_array_length)%Z ->
  let pd' := personDetails (handlePersonDetailsChange index f v s) in
  (exists o, nth_error pd' index = Some (Val o) /\ obj_get o f = Some v /\
     forall g, g <> f -> obj_get o g =
       match arr_get (personDetails s) index with Some o0 => obj_get o0 g | None => None end) /\
  (forall j, j <> index -> j < length (personDetails s) ->
     nth_error pd' j = option_map (fun x => match x with Hole => Undef | y => y end)
                                  (nth_error (personDetails s) j)).
Proof.
  intros Hi. simpl. split.
  - eexists. split; [apply nth_error_arr_set_same, Hi|]. split; [apply obj_get_set_eq|].
    intros g Hg. rewrite obj_get_set_neq by congruence.
    unfold arr_get. rewrite nth_error_spread.
    destruct (nth_error (personDetails s) index) as [[| |o0]|]; reflexivity.
  - intros j Hj Hlen. rewrite nth_error_arr_set_other by (rewrite ?length_spread; auto).
    apply nth_error_spread.
Qed.

Lemma handlePersonDetailsChange_witness :
  exists o, nth_error (personDetails (handlePersonDetailsChange 2 email "a@b.cd" initial_state)) 2
              = Some (Val o) /\ obj_get o email = Some "a@b.cd"%string.
Proof.
  destruct (handlePersonDetailsChange_spec 2 email "a@b.cd" initial_state
              ltac:(vm_compute; reflexivity)) as [(o & H1 & H2 & _) _].
  exists o. split; assumption.
Defined.

End Handlers.
