(* ===== verification/Effects.v ===== *)
(** * The mount effect and the commit loop of React

    src/pages/buy-ticket.tsx, lines 18-20, registers
    [useEffect(() => { setTicketNumber(generateTicketNumber()); }, [])].
    React runs an effect after a commit when the effect has no
    dependency array, on the first commit, or when one of its
    dependencies changed ([Object.is]); a state update with a new value
    schedules another render and commit, one with the same value bails
    out. [commit_loop] runs that loop on fuel, one unit per commit, with
    [draw i] the [i]-th value of [Math.floor(Math.random() * 1000)].

    The theorem: with the dependency array [[]] of line 20, mounting the
    form settles after two commits, whatever the draws, with the ticket
    number of the first draw; more fuel changes nothing
    ([mount_terminates]). Without the array the effect would run after
    every commit and the page would re-render as long as the draws keep
    changing ([every_commit_diverges]). React's development-mode double
    invocation of effects (StrictMode) is not modelled. *)

From S2P Require Import Prelude JsRuntime TicketNumber FormState Handlers.
From Stdlib Require Import String ZArith List Lia Bool Arith.
Import ListNotations.

Module Effects.
Import Js TicketNumber FormState Handlers.

(** The dependency argument of [useEffect]: absent, or an array of
    values. *)
Inductive deps := EveryCommit | DepsArray (values : list string).

(** The dependencies of the effect of line 20: [[]]. *)
Definition ticket_effect_deps : deps := DepsArray [].

Definition deps_values (d : deps) : option (list string) :=
  match d with
  | EveryCommit => None
  | DepsArray ds => Some ds
  end.

(** Whether React runs the effect after a commit, given the
    dependencies recorded at the previous run ([None] before the first). *)
Definition effect_due (d : deps) (prev : option (list string)) : bool :=
  match d, prev with
  | EveryCommit, _ => true
  | DepsArray _, None => true
  | DepsArray ds, Some ps => if list_eq_dec string_dec ds ps then false else true
  end.

(** The commits of a mounted [FormPage] from the state [s], starting at
    draw [i]: the state once no update is pending, or [None] when the
    fuel runs out first. *)
Fixpoint commit_loop (fuel : nat) (d : deps) (draw : nat -> Z) (i : nat)
    (prev : option (list string)) (s : State) : option State :=
  match fuel with
  | O => None
  | S f =>
      if effect_due d prev then
        let s' := mountEffect (draw i) s in
        if String.eqb (ticketNumber s') (ticketNumber s) then Some s
        else commit_loop f d draw (S i) (deps_values d) s'
      else Some s
  end.

(** ** Theorems *)

Lemma generateTicketNumber_nonempty k : String.eqb (generateTicketNumber k) EmptyString = false.
Proof. reflexivity. Qed.

(** C20: mounting the form terminates: with the dependency array [[]],
    every fuel of two commits or more ends the loop in the same state,
    the initial form with the ticket number of the first draw, whatever
    the random draws are. *)
Theorem mount_terminates draw fuel :
  2 <= fuel ->
  commit_loop fuel ticket_effect_deps draw 0 None initial_state =
  Some (mountEffect (draw 0) initial_state).
Proof.
  intros Hf. destruct fuel as [|[|fuel]]; [lia | lia|].
  cbn [commit_loop effect_due ticket_effect_deps deps_values].
  change (ticketNumber (mountEffect (draw 0) initial_state)) with (generateTicketNumber (draw 0)).
  rewrite generateTicketNumber_nonempty. reflexivity.
Qed.

(** The draws 0, 1, 0, 1, ... *)
Definition alternating (j : nat) : Z := if Nat.odd j then 1%Z else 0%Z.

(** Without a dependency array, draws that alternate between 0 and 1
    keep the loop committing for every fuel. *)
Lemma every_commit_diverges fuel i s :
  ticketNumber s <> generateTicketNumber (alternating i) ->
  commit_loop fuel EveryCommit alternating i None s = None.
Proof.
  revert i s. induction fuel as [|fuel IH]; intros i s Hs; [reflexivity|].
  cbn [commit_loop effect_due deps_values].
  destruct (String.eqb_spec (ticketNumber (mountEffect (alternating i) s)) (ticketNumber s)) as [E|_].
  - exfalso. apply Hs. rewrite <- E. reflexivity.
  - apply IH. simpl. unfold alternating. rewrite Nat.odd_succ, <- Nat.negb_odd.
    destruct (Nat.odd i); intros E; vm_compute in E; discriminate E.
Qed.

Lemma mount_terminates_witness :
  commit_loop 5 ticket_effect_deps (fun _ => 7%Z) 0 None initial_state =
  Some (mountEffect 7 initial_state).
Proof. apply (mount_terminates (fun _ => 7%Z) 5). lia. Defined.

End Effects.
