(* ===== verification/Landing.v ===== *)
(** * The landing page [EventBanner]

    src/components/Landing.tsx renders static content: a heading, a
    paragraph, a Next.js [Link] to [/buy-ticket], an illustration through
    [next/image], and a footer with the date and the place. It has no
    state. This file translates the element tree into a [Banner] record,
    with the text of each element as JSX produces it from the source
    lines ([jsx_text]: each line trimmed of the spaces at its inner ends,
    empty lines dropped, the others joined by one space), and models the
    two pieces of Next.js the banner relies on: the route the pages
    router gives a file under [src/pages] ([page_route]) and the rule
    [next/image] applies to a [src] ([next_image_src_ok]: a path with a
    leading slash or an absolute http(s) URL).

    The theorems: the banner has exactly one link, and it leads to the
    route of the form page ([banner_links_to_form]); the illustration's
    [src], ['illust.png'], is refused by [next/image] while the QR code's
    ['/qr.png'] on the form page is accepted
    ([banner_illustration_src_rejected]). Class names and the layout
    props of the image carry no behaviour and are left out. *)

From S2P Require Import Prelude.
From Stdlib Require Import String Ascii List Bool.
Import ListNotations.
Local Open Scope string_scope.

Module Landing.

(** ** JSX text *)

Definition is_space (c : ascii) : bool := Ascii.eqb c " ".

Fixpoint trim_left (s : string) : string :=
  match s with
  | String c s' => if is_space c then trim_left s' else s
  | EmptyString => EmptyString
  end.

Definition string_rev (s : string) : string :=
  string_of_list_ascii (rev (list_ascii_of_string s)).

Definition trim_right (s : string) : string := string_rev (trim_left (string_rev s)).

(** One source line of a text child: the first line keeps its leading
    spaces, the last line its trailing ones. *)
Definition jsx_line (first last : bool) (l : string) : string :=
  let l1 := if first then l else trim_left l in
  if last then l1 else trim_right l1.

Fixpoint jsx_lines (first : bool) (ls : list string) : list string :=
  match ls with
  | [] => []
  | [l] => [jsx_line first true l]
  | l :: ls' => jsx_line first false l :: jsx_lines false ls'
  end.

Fixpoint join_space (ls : list string) : string :=
  match ls with
  | [] => EmptyString
  | [l] => l
  | l :: ls' => l ++ " " ++ join_space ls'
  end.

Definition nonempty (s : string) : bool :=
  match s with EmptyString => false | _ => true end.

(** The string a text child spanning the source lines [ls] renders. *)
Definition jsx_text (ls : list string) : string :=
  join_space (filter nonempty (jsx_lines true ls)).

(** ** The element tree *)

Record Link := mkLink { href : string; link_text : string }.
Record Image := mkImage { img_src : string; img_alt : string }.

Record Banner := mkBanner {
  heading : string;
  blurb : string;
  links : list Link;
  illustration : Image;
  footer : string
}.

(** [EventBanner], lines 4-43, with the source lines of each text. *)
Definition EventBanner : Banner := {|
  heading :=
    jsx_text [""; "            Join the "] ++ jsx_text ["Grad-Dinner"] ++
    jsx_text [" of the"; "            year"; "          "];
  blurb :=
    jsx_text [""; "            Experience lightning talks, meeting of new people, and savor";
              "            delectable food and drinks. An evening crafted for everyone awaits.";
              "          "];
  links := [{| href := "/buy-ticket";
               link_text := jsx_text [""; "            Book a Seat"; "          "] |}];
  illustration := {| img_src := "illust.png"; img_alt := "Event Illustration" |};
  footer :=
    jsx_text [""; "          Sat. June 1st, 2024 | Pantaloon Building, KIIT Road | 4PM till";
              "          midnight"; "        "]
|}.

(** The image of the QR code on the form page (line 275). *)
Definition qr_image : Image := {| img_src := "/qr.png"; img_alt := "QR Code" |}.

(** ** Next.js *)

(** The route of a page file of the pages router: [src/pages/NAME.tsx]
    is served at [/NAME], [index.tsx] at [/]. *)
Definition page_route (file : string) : option string :=
  match strip_prefix "src/pages/" file with
  | Some rest =>
      let name := string_rev rest in
      match strip_prefix (string_rev ".tsx") name with
      | Some eman => if String.eqb eman (string_rev "index") then Some "/"
                     else Some ("/" ++ string_rev eman)
      | None => None
      end
  | None => None
  end.

(** The [src] values [next/image] accepts: a path from the root (not a
    protocol-relative [//host]) or an absolute http(s) URL; any other
    value fails to parse as a URL. *)
Definition next_image_src_ok (src : string) : bool :=
  match strip_prefix "/" src with
  | Some rest => negb (match strip_prefix "/" rest with Some _ => true | None => false end)
  | None =>
      match strip_prefix "http://" src, strip_prefix "https://" src with
      | None, None => false
      | _, _ => true
      end
  end.

(** ** Theorems *)

(** The banner renders exactly one link, labelled "Book a Seat",
    and it leads to the route Next.js gives the form page
    src/pages/buy-ticket.tsx: the navigation the spec describes. *)
Example banner_links_to_form :
  exists r, page_route "src/pages/buy-ticket.tsx" = Some r /\
            links EventBanner = [{| href := r; link_text := "Book a Seat" |}].
Proof. exists "/buy-ticket". split; reflexivity. Qed.

(** The illustration of the banner has the [src] ['illust.png'],
    without a leading slash, which [next/image] refuses; the QR code of
    the form page, ['/qr.png'], is accepted. *)
Example banner_illustration_src_rejected :
  next_image_src_ok (img_src (illustration EventBanner)) = false /\
  next_image_src_ok (img_src qr_image) = true.
Proof. split; reflexivity. Qed.

(** The texts the banner shows. *)
Example banner_texts :
  heading EventBanner = "Join the Grad-Dinner of the year" /\
  footer EventBanner = "Sat. June 1st, 2024 | Pantaloon Building, KIIT Road | 4PM till midnight".
Proof. split; reflexivity. Qed.

End Landing.
