(* ===== verification/Heap.v ===== *)
(** * The roster with object references

    JavaScript arrays hold references. Line 39 of
    src/pages/buy-ticket.tsx, [Array(newNumPersons).fill({ name: '',
    email: '', phone: '' })], allocates one object and stores the same
    reference in every element: all the persons of a fresh roster are one
    shared object. The value model of [Handlers] gives each element its
    own copy. This file models the roster as the heap sees it (a [gmap]
    from addresses to objects, an array of addresses, the next free
    address) and proves the two models equal on every sequence of roster
    operations: [handlePersonDetailsChange] copies the array (line 48) and
    stores a fresh object built with a spread (line 49), so the shared
    object is never written. The counterpart [set_in_place], the
    assignment [newPersonDetails[index][field] = value], would write the
    shared object and change every person of a fresh roster at once
    ([in_place_aliases]). *)

From stdpp Require Import base gmap.
From S2P Require Import Prelude JsRuntime FormState Handlers.
From Stdlib Require Import String ZArith List Lia.
Import ListNotations.

Module Heap.
Import Js FormState Handlers.

(** ** The roster by reference *)

Record HRoster := mkHRoster {
  heap : gmap nat Obj;
  next : nat;
  refs : list (slot nat)
}.

(** The array of objects an array of references denotes. *)
Definition deref_slot (h : gmap nat Obj) (x : slot nat) : slot Obj :=
  match x with
  | Val l => match h !! l with Some o => Val o | None => Undef end
  | Hole => Hole
  | Undef => Undef
  end.

Definition deref (h : gmap nat Obj) (a : list (slot nat)) : list (slot Obj) :=
  map (deref_slot h) a.

(** [Array(n).fill({ name: '', email: '', phone: '' })]: one new object,
    [n] references to it. *)
Definition h_fill (n : nat) (r : HRoster) : HRoster :=
  {| heap := <[next r := blank_person]> (heap r); next := S (next r);
     refs := repeat (Val (next r)) n |}.

(** [handleNumPersonsChange] on the roster. *)
Definition h_numPersons (value : string) (r : HRoster) : HRoster :=
  match array_ctor_len (parseInt value) with
  | Some n => h_fill n r
  | None => r
  end.

(** [handlePersonDetailsChange]: a copy of the array of references, a
    fresh object [{ ...newPersonDetails[index], [field]: value }], and
    its reference stored at [index]. *)
Definition h_personDetails (index : nat) (field : Field) (value : string) (r : HRoster) : HRoster :=
  let newPersonDetails := spread (refs r) in
  let current := match arr_get newPersonDetails index with
                 | Some l => match heap r !! l with Some o => o | None => [] end
                 | None => []
                 end in
  {| heap := <[next r := obj_set current field value]> (heap r); next := S (next r);
     refs := arr_set newPersonDetails index (next r) |}.

(** The assignment [newPersonDetails[index][field] = value] on the
    object the element refers to. *)
Definition set_in_place (index : nat) (field : Field) (value : string) (r : HRoster) : HRoster :=
  match arr_get (refs r) index with
  | Some l =>
      match heap r !! l with
      | Some o => {| heap := <[l := obj_set o field value]> (heap r); next := next r; refs := refs r |}
      | None => r
      end
  | None => r
  end.

(** ** Roster operations on both models *)

Inductive roster_op :=
| OpCount (value : string)
| OpEdit (index : nat) (field : Field) (value : string).

Definition v_step (s : State) (op : roster_op) : State :=
  match op with
  | OpCount v => fst (handleNumPersonsChange v s)
  | OpEdit i f v => handlePersonDetailsChange i f v s
  end.

Definition h_step (r : HRoster) (op : roster_op) : HRoster :=
  match op with
  | OpCount v => h_numPersons v r
  | OpEdit i f v => h_personDetails i f v r
  end.

(** The empty roster of line 15, by reference. *)
Definition h_initial : HRoster := {| heap := ∅; next := 0; refs := [] |}.

Definition below (n : nat) (x : slot nat) : Prop :=
  match x with Val l => l < n | _ => True end.

(** Every reference of the array is below the next free address. *)
Definition fresh_above (r : HRoster) : Prop := Forall (below (next r)) (refs r).

Definition heap_rel (r : HRoster) (s : State) : Prop :=
  fresh_above r /\ deref (heap r) (refs r) = personDetails s.

(** ** Lemmas *)

Lemma deref_insert_fresh h a l o :
  Forall (below l) a ->
  deref (<[l := o]> h) a = deref h a.
Proof.
  induction 1 as [|x a Hx _ IH]; [reflexivity|]. simpl. rewrite IH. f_equal.
  destruct x as [| |l']; simpl; [reflexivity | reflexivity|].
  simpl in Hx. rewrite lookup_insert_ne by lia. reflexivity.
Qed.

Lemma deref_spread h a : deref h (spread a) = spread (deref h a).
Proof.
  unfold deref, spread. rewrite !map_map. apply map_ext.
  intros [| |l]; simpl; [reflexivity | reflexivity|]. now destruct (h !! l).
Qed.

Lemma deref_arr_set h a i l o :
  h !! l = Some o -> deref h (arr_set a i l) = arr_set (deref h a) i o.
Proof.
  intros Hl. unfold deref, arr_set. rewrite length_map.
  destruct (Z.of_nat i <? max_array_length)%Z; [|reflexivity].
  destruct (Nat.ltb i (length a)).
  - rewrite map_app, firstn_map, skipn_map. simpl. now rewrite Hl.
  - rewrite !map_app, map_repeat. simpl. now rewrite Hl.
Qed.

Lemma arr_get_deref h a i :
  arr_get (deref h a) i =
  match arr_get a i with Some l => h !! l | None => None end.
Proof.
  unfold arr_get, deref. rewrite nth_error_map.
  destruct (nth_error a i) as [[| |l]|]; simpl; try reflexivity. now destruct (h !! l).
Qed.

Lemma fresh_above_spread a n : Forall (below n) a -> Forall (below n) (spread a).
Proof.
  rewrite !Forall_forall. intros Ha x Hx. unfold spread in Hx.
  apply in_map_iff in Hx as ([| |l] & <- & Hy); [exact I | exact I | exact (Ha _ Hy)].
Qed.

Lemma below_S n x : below n x -> below (S n) x.
Proof. destruct x; simpl; auto. Qed.

Lemma in_firstn {A} (x : A) i l : In x (firstn i l) -> In x l.
Proof. intros H. rewrite <- (firstn_skipn i l). apply in_or_app. auto. Qed.

Lemma in_skipn {A} (x : A) i l : In x (skipn i l) -> In x l.
Proof. intros H. rewrite <- (firstn_skipn i l). apply in_or_app. auto. Qed.

Lemma fresh_above_arr_set a i n : Forall (below n) a -> Forall (below (S n)) (arr_set a i n).
Proof.
  rewrite !Forall_forall. intros Ha x Hx. unfold arr_set in Hx.
  destruct (Z.of_nat i <? max_array_length)%Z; [|now apply below_S, Ha].
  destruct (Nat.ltb i (length a)).
  - apply in_app_or in Hx as [Hx|[<-|Hx]].
    + apply below_S, Ha. eapply in_firstn; eauto.
    + simpl. lia.
    + apply below_S, Ha. eapply in_skipn; eauto.
  - apply in_app_or in Hx as [Hx|Hx]; [now apply below_S, Ha|].
    apply in_app_or in Hx as [Hx|[<-|[]]]; [apply repeat_spec in Hx as ->; exact I | simpl; lia].
Qed.

Lemma h_step_rel r s op : heap_rel r s -> heap_rel (h_step r op) (v_step s op).
Proof.
  intros [Hf Hd]. destruct op as [v|i f v]; simpl.
  - unfold h_numPersons, handleNumPersonsChange.
    destruct (array_ctor_len (parseInt v)) as [n|]; simpl; [|split; assumption].
    split.
    + unfold fresh_above, h_fill. simpl. apply Forall_forall. intros x Hx. apply repeat_spec in Hx as ->. simpl. lia.
    + unfold deref, h_fill. simpl. rewrite map_repeat. simpl. now rewrite lookup_insert_eq.
  - unfold h_personDetails, handlePersonDetailsChange, heap_rel, fresh_above. cbn [heap refs next personDetails]. split.
    + apply fresh_above_arr_set, fresh_above_spread, Hf.
    + rewrite deref_arr_set with (o := obj_set _ f v) by apply lookup_insert_eq.
      rewrite deref_spread, deref_insert_fresh by exact Hf. rewrite Hd.
      f_equal. f_equal. rewrite <- Hd, <- deref_spread, arr_get_deref.
      destruct (arr_get (spread (refs r)) i); reflexivity.
Qed.

(** ** Theorems *)

(** C39: the roster by reference, where [Array(n).fill] makes every
    element the same object, and the roster by value are equal after
    every sequence of count changes and field edits from the empty
    roster: the aliasing of line 39 is never observed, because the edit
    handler copies the array and builds a fresh object. *)
Theorem roster_heap_equiv ops :
  deref (heap (fold_left h_step ops h_initial)) (refs (fold_left h_step ops h_initial)) =
  personDetails (fold_left v_step ops initial_state).
Proof.
  assert (Gen : forall r s, heap_rel r s -> heap_rel (fold_left h_step ops r) (fold_left v_step ops s)).
  { induction ops as [|op ops IH]; intros r s Hrs; simpl; [exact Hrs|]. now apply IH, h_step_rel. }
  apply Gen. split; [constructor | reflexivity].
Qed.

(** Writing the shared object in place would change every person of a
    fresh roster: after a count of 2, setting the name of person 1 also
    sets the name of person 2. *)
Lemma in_place_aliases :
  let r := set_in_place 0 name "Asha"%string (h_numPersons "2"%string h_initial) in
  deref (heap r) (refs r) = [Val [(name, "Asha"%string); (email, ""%string); (phone, ""%string)];
                             Val [(name, "Asha"%string); (email, ""%string); (phone, ""%string)]].
Proof. reflexivity. Qed.

End Heap.
