(* ===== verification/Render.v ===== *)
(** * What [FormPage] renders

    src/pages/buy-ticket.tsx, lines 124-311: the JSX of the page as a
    function of the state. [FormPage_view] gives, for one state, whether
    the modal is open (line 126), the values of the read-only inputs (the
    ticket number, line 165; the amount, line 189; the total, line 255),
    the selected ticket type (line 175), the count (line 201), one row per
    index of [Array.from({ length: numPersons })] (lines 206-248) with
    its labels and the values [personDetails[index]?.field || ''], the
    QR-code panel with its texts and image (lines 268-282) and the error
    list (lines 295-301); or the
    [RangeError] that [Array.from] throws for a count above [2^32 - 1],
    after which the page is unmounted.

    The theorems: closing the modal changes nothing else on screen (the
    spec's "dismiss returns to the form with prior field values"); the QR
    button switches the QR panel and nothing else; a row
    shows what was typed into it; rendering throws exactly for a count
    above [2^32 - 1]; for an accepted count the page shows that many rows
    and every stored person has one. *)

From S2P Require Import Prelude JsRuntime FormState Validation Handlers Landing.
From Stdlib Require Import String Ascii ZArith List Lia Bool Arith.
Import ListNotations.

Module Render.
Import Js FormState Validation Handlers Landing.

(** The rupee sign (U+20B9) that prefixes the amount and the total, as
    the three bytes of its UTF-8 encoding. *)
Definition rupee : string :=
  String (ascii_of_nat 226) (String (ascii_of_nat 130) (String (ascii_of_nat 185) EmptyString)).

(** [x || '']: a missing or empty value shows as the empty string. *)
Definition shown (v : option string) : string :=
  match v with
  | Some x => x
  | None => EmptyString
  end.

(** [personDetails[index]?.field || ''] *)
Definition field_value (pd : list (slot Obj)) (index : nat) (f : Field) : string :=
  match arr_get pd index with
  | Some o => shown (obj_get o f)
  | None => EmptyString
  end.

(** One person row: its three labels and its three input values. *)
Record Row := mkRow {
  name_label : string; name_value : string;
  email_label : string; email_value : string;
  phone_label : string; phone_value : string
}.

Definition render_row (s : State) (index : nat) : Row := {|
  name_label := ("Name of Person " ++ person_label index)%string;
  name_value := field_value (personDetails s) index name;
  email_label := ("Email Address of Person " ++ person_label index)%string;
  email_value := field_value (personDetails s) index email;
  phone_label := ("Phone Number of Person " ++ person_label index)%string;
  phone_value := field_value (personDetails s) index phone
|}.

(** The QR panel, [{showQrCode && (...)}] of lines 268-282: its two
    texts and the image of the QR code. *)
Record QrPanel := mkQrPanel { qr_caption : string; qr_account : string; qr_code : Image }.

Definition qr_panel (s : State) : option QrPanel :=
  if showQrCode s then
    Some {| qr_caption := "Scan To make Payment"%string;
            qr_account := jsx_text [""%string; "                  Account Name: Mr. Dominic Asamoah Ampofo"%string;
                                    "                "%string];
            qr_code := qr_image |}
  else None.

(** The error list, [{errors.length > 0 && (...)}] of lines 295-301: one
    paragraph per message, in order, or nothing. *)
Definition error_block (s : State) : option (list string) :=
  if Nat.ltb 0 (length (errors s)) then Some (map (fun error => error) (errors s)) else None.

Record View := mkView {
  modal_open : bool;
  ticket_number_input : string;
  ticket_type_select : string;
  amount_input : string;
  num_persons_input : JSNum;
  person_rows : list Row;
  total_input : string;
  qr_view : option QrPanel;
  error_view : option (list string)
}.

(** The page for the state [s]: the element tree, or the exception that
    [Array.from({ length: numPersons })] (line 206) throws while
    rendering, after which React unmounts the page (there is no error
    boundary). *)
Definition FormPage_view (s : State) : completion View :=
  match array_from_len (numPersons s) with
  | None => Abrupt RangeError
  | Some len => Normal {|
      modal_open := formSubmitted s;
      ticket_number_input := ticketNumber s;
      ticket_type_select := ticketType s;
      amount_input := (rupee ++ num_to_string (Num (amount s)))%string;
      num_persons_input := numPersons s;
      person_rows := map (render_row s) (seq 0 len);
      total_input := (rupee ++ num_to_string (totalAmount s))%string;
      qr_view := qr_panel s;
      error_view := error_block s
    |}
  end.

(** ** Theorems *)

(** C28: closing the confirmation modal hides it and leaves everything
    else on screen as it was: the ticket, the count, every row with its
    values, the total and the messages (and a page that cannot render
    still cannot). *)
Theorem closeModal_view s :
  FormPage_view (closeModal s) =
  match FormPage_view s with
  | Normal v => Normal {| v with modal_open := false |}
  | Abrupt e => Abrupt e
  end.
Proof. unfold FormPage_view, closeModal. cbn [numPersons]. now destruct (array_from_len (numPersons s)). Qed.

(** C15: the "View QR Code" button switches the QR panel and nothing
    else: on a page that renders, one click shows the panel when it was
    hidden and hides it when it was shown, leaving the rest of the view
    as it was, and a second click restores the view. *)
Theorem toggleQrCode_view s v :
  FormPage_view s = Normal v ->
  exists w, FormPage_view (toggleQrCode s) = Normal w /\ w = {| v with qr_view := qr_view w |} /\
    (qr_view w = None <-> qr_view v <> None) /\
    FormPage_view (toggleQrCode (toggleQrCode s)) = Normal v.
Proof.
  unfold FormPage_view, toggleQrCode. cbn [numPersons showQrCode].
  destruct (array_from_len (numPersons s)); [|discriminate]. intros [= <-].
  eexists. split; [reflexivity|]. split; [reflexivity|]. unfold qr_panel. cbn.
  rewrite negb_involutive. split; [|reflexivity].
  destruct (showQrCode s); cbn; split; intros Hq; try discriminate; [reflexivity|].
  exfalso. now apply Hq.
Qed.

Lemma arr_get_arr_set_same {A} (l : list (slot A)) i v :
  (Z.of_nat i < max_array_length)%Z -> arr_get (arr_set l i v) i = Some v.
Proof. intros Hi. unfold arr_get. now rewrite nth_error_arr_set_same. Qed.

(** C29: after typing [v] into field [f] of row [index], the row shows
    [v] in that field. *)
Theorem row_shows_typed_value index f v s :
  (Z.of_nat index < max_array_length)%Z ->
  field_value (personDetails (handlePersonDetailsChange index f v s)) index f = v.
Proof.
  intros Hi. unfold field_value. simpl.
  rewrite arr_get_arr_set_same by exact Hi. simpl. now rewrite obj_get_set_eq.
Qed.

Lemma array_from_len_spec x len :
  array_from_len x = Some len <->
  (to_length x <= max_array_length)%Z /\ len = Z.to_nat (to_length x).
Proof.
  unfold array_from_len. destruct (Z.leb_spec (to_length x) max_array_length) as [H|H].
  - split; [intros [= <-]; auto | intros [_ ->]; reflexivity].
  - split; [discriminate | intros [H' _]; lia].
Qed.

Lemma FormPage_view_rows s v :
  FormPage_view s = Normal v ->
  (to_length (numPersons s) <= max_array_length)%Z /\
  person_rows v = map (render_row s) (seq 0 (Z.to_nat (to_length (numPersons s)))).
Proof.
  unfold FormPage_view. destruct (array_from_len (numPersons s)) as [len|] eqn:E; [|discriminate].
  apply array_from_len_spec in E as [Hb ->]. intros [= <-]. auto.
Qed.

(** A row the page shows has an index below the count and below
    [2^32 - 1]. *)
Lemma shown_row_index s v i :
  FormPage_view s = Normal v -> i < length (person_rows v) ->
  (Z.of_nat i < to_length (numPersons s))%Z /\ (Z.of_nat i < max_array_length)%Z.
Proof.
  intros Hv Hi. apply FormPage_view_rows in Hv as [Hb Hr].
  rewrite Hr, length_map, length_seq in Hi. unfold to_length in *.
  destruct (numPersons s); lia.
Qed.

(** C32: rendering throws exactly when the count is a number above
    [2^32 - 1]: [Array.from] then calls [new Array(len)], which throws a
    [RangeError]; a count of NaN or below 0 renders no row. *)
Theorem FormPage_view_throws s :
  FormPage_view s = Abrupt RangeError <-> exists n, numPersons s = Num n /\ (max_array_length < n)%Z.
Proof.
  unfold FormPage_view, array_from_len, to_length, max_array_length, max_safe_length.
  destruct (numPersons s) as [|n].
  - split; [discriminate | intros (m & Hm & _); discriminate Hm].
  - destruct (Z.leb_spec (Z.max 0 (Z.min n (2 ^ 53 - 1))) (2 ^ 32 - 1)) as [Hle|Hgt]; split.
    + discriminate.
    + intros (m & [= <-] & Hm). lia.
    + intros _. exists n. split; [reflexivity | lia].
    + reflexivity.
Qed.

Lemma rows_cover_persons_view s n :
  numPersons s = Num n -> (0 <= n <= max_array_length)%Z ->
  length (personDetails s) <= Z.to_nat n ->
  exists v, FormPage_view s = Normal v /\ length (person_rows v) = Z.to_nat n /\
  forall i, i < length (personDetails s) -> nth_error (person_rows v) i = Some (render_row s i).
Proof.
  intros Hn Hb Hlen. assert (Ht : to_length (numPersons s) = n).
  { rewrite Hn. unfold to_length, max_array_length, max_safe_length in *. lia. }
  destruct (FormPage_view s) as [v|e] eqn:Hv.
  - exists v. split; [reflexivity|]. apply FormPage_view_rows in Hv as [_ Hr]. rewrite Hr, Ht.
    split; [now rewrite length_map, length_seq|].
    intros i Hi. rewrite nth_error_map, nth_error_seq.
    destruct (Nat.ltb_spec i (Z.to_nat n)); [reflexivity | lia].
  - exfalso. unfold FormPage_view, array_from_len in Hv. rewrite Ht in Hv.
    destruct (Z.leb_spec n max_array_length); [discriminate | lia].
Qed.

(** C30: for an accepted count [n], the page renders and shows exactly
    [n] rows, and the row of every stored person is among them, with its
    values. *)
Theorem rows_cover_persons s n :
  numPersons s = Num n -> (0 <= n <= max_array_length)%Z ->
  length (personDetails s) <= Z.to_nat n ->
  exists v, FormPage_view s = Normal v /\ length (person_rows v) = Z.to_nat n /\
  forall i, i < length (personDetails s) -> nth_error (person_rows v) i = Some (render_row s i).
Proof. exact (rows_cover_persons_view s n). Qed.

Definition one_row_state : State := {| initial_state with personDetails := [Val blank_person] |}.

Lemma rows_cover_persons_witness :
  exists v, FormPage_view one_row_state = Normal v /\ length (person_rows v) = 1.
Proof.
  destruct (rows_cover_persons one_row_state 1 eq_refl ltac:(vm_compute; split; discriminate)
              ltac:(vm_compute; auto)) as (v & Hv & Hl & _).
  exists v. split; [exact Hv | exact Hl].
Defined.

Lemma toggleQrCode_view_witness :
  exists w, FormPage_view (toggleQrCode one_row_state) = Normal w /\ qr_view w <> None.
Proof.
  destruct (toggleQrCode_view one_row_state _ eq_refl) as (w & Hw & _ & [Hq _] & _).
  exists w. split; [exact Hw|]. intros Hn. exact (Hq Hn eq_refl).
Defined.

Lemma row_shows_typed_value_witness :
  field_value (personDetails (handlePersonDetailsChange 0 name "Asha" initial_state)) 0 name
    = "Asha"%string.
Proof. apply row_shows_typed_value. vm_compute. reflexivity. Defined.

End Render.
