(* ===== verification/Submission.v ===== *)
(** * Submission and the page as a state machine

    [handleSubmit] (src/pages/buy-ticket.tsx, lines 61-93) is an async
    function: it validates, and either stores the messages and returns, or
    builds a [FormData] and calls [fetch]; everything after [await fetch]
    runs later, when the response settles, while other events may run in
    between. The model splits it at the [await]: [handleSubmit] is the
    synchronous part, which returns the request it issues, and
    [settleSubmit] is the continuation, which sets the modal flag on a
    2xx response and one error message otherwise. Nothing disables the
    submit button while a request is in flight.

    [Page] is the component state plus the requests in flight; [step]
    runs one event (an input of the user or the settling of one pending
    request, in any order); [enabled] says which events the rendered page
    offers ([Array.from({length: numPersons})] renders the person rows,
    the select offers its two options, the modal its Close button);
    [reachable] is the set of pages that a sequence of enabled events
    reaches from a mounted form. The theorems: the effect of submitting
    and of settling, the invariants of the reachable pages (the unit price
    always matches the ticket type, the amount and total shown match the
    type and count shown, every request in flight passed validation and
    its persons decode from its JSON text, the ticket number keeps its
    format, the roster follows the count). *)

From S2P Require Import Prelude JsRuntime Regex Patterns TicketNumber FormState Json Validation Handlers Render.
From Stdlib Require Import String Ascii ZArith List Lia Bool Arith.
Import ListNotations.

Module Submission.
Import Js Regex TicketNumber FormState Json Validation Handlers Render.

(** The fields of the [FormData] of lines 69-75; [personDetails] is
    sent as the text [JSON.stringify(personDetails)] ([Json.stringify]). *)
Record FormData := mkFormData {
  fd_ticketNumber : string;
  fd_ticketType : string;
  fd_amount : string;
  fd_total : string;
  fd_transactionScreenshot : option File;
  fd_personDetails : string
}.

Definition build_form_data (s : State) : FormData := {|
  fd_ticketNumber := ticketNumber s;
  fd_ticketType := ticketType s;
  fd_amount := num_to_string (Num (amount s));
  fd_total := num_to_string (totalAmount s);
  fd_transactionScreenshot := transactionImage s;
  fd_personDetails := stringify (personDetails s)
|}.

(** How a [fetch] settles: a response with [response.ok], a response
    with another status and its body text, or a thrown error with its
    message. *)
Inductive response := Ok | NotOk (body : string) | NetworkFailure (message : string).

Section WithMatcher.
Context `{Matcher}.

(** The part of [handleSubmit] before the [await]: the new state, the
    request issued, and the exception that rejects the promise. *)
Definition handleSubmit (s : State) : State * option FormData * option js_error :=
  match validateForm s with
  | Abrupt e => (s, None, Some e)
  | Normal [] => (s, Some (build_form_data s), None)
  | Normal validationErrors => ({| s with errors := validationErrors |}, None, None)
  end.

End WithMatcher.

(** The part after the [await]. *)
Definition settleSubmit (r : response) (s : State) : State :=
  match r with
  | Ok => {| s with formSubmitted := true |}
  | NotOk errorText => {| s with errors := [("Failed to submit data: " ++ errorText)%string] |}
  | NetworkFailure message => {| s with errors := [("Failed to submit data: " ++ message)%string] |}
  end.

(** ** The page *)

Record Page := mkPage {
  st : State;
  pending : list FormData
}.

Inductive event :=
| SelectTicketType (value : string)
| InputNumPersons (value : string)
| InputPersonField (index : nat) (field : Field) (value : string)
| ChooseFiles (files : list File)
| ToggleQr
| Submit
| Settle (request : nat) (r : response)
| CloseModal.

Definition remove_nth {A} (i : nat) (l : list A) : list A := firstn i l ++ skipn (S i) l.

Section Page.
Context `{Matcher}.

(** One event: the new page and the exception that escapes, if any. *)
Definition step (p : Page) (e : event) : Page * option js_error :=
  match e with
  | SelectTicketType v => ({| p with st := handleTicketTypeChange v (st p) |}, None)
  | InputNumPersons v =>
      let '(s', err) := handleNumPersonsChange v (st p) in ({| p with st := s' |}, err)
  | InputPersonField i f v => ({| p with st := handlePersonDetailsChange i f v (st p) |}, None)
  | ChooseFiles fs => ({| p with st := handleTransactionImageChange fs (st p) |}, None)
  | ToggleQr => ({| p with st := toggleQrCode (st p) |}, None)
  | Submit =>
      let '(s', req, err) := handleSubmit (st p) in
      ({| st := s'; pending := pending p ++ match req with Some r => [r] | None => [] end |}, err)
  | Settle i r => ({| st := settleSubmit r (st p); pending := remove_nth i (pending p) |}, None)
  | CloseModal => ({| p with st := closeModal (st p) |}, None)
  end.

(** The events the rendered view [v] offers: the select offers its two
    options, one row of inputs per element of
    [Array.from({length: numPersons})], the modal its Close button, and a
    settling for each request in flight. *)
Definition offered (p : Page) (v : View) (e : event) : bool :=
  match e with
  | SelectTicketType x => existsb (String.eqb x) ticket_options
  | InputPersonField i _ _ => Nat.ltb i (length (person_rows v))
  | Settle i _ => Nat.ltb i (length (pending p))
  | CloseModal => modal_open v
  | _ => true
  end.

(** A page whose render threw is unmounted: it offers nothing. *)
Definition enabled (p : Page) (e : event) : bool :=
  match FormPage_view (st p) with
  | Normal v => offered p v e
  | Abrupt _ => false
  end.

(** The form after its first render and the [useEffect]. *)
Definition init_page (k : Z) : Page := {| st := mountEffect k initial_state; pending := [] |}.

Inductive reachable : Page -> Prop :=
| reach_init k : (0 <= k < 1000)%Z -> reachable (init_page k)
| reach_step p e : reachable p -> enabled p e = true -> reachable (fst (step p e)).

(** Runs a sequence of events, or [None] when one is not offered. *)
Fixpoint run (p : Page) (es : list event) : option Page :=
  match es with
  | [] => Some p
  | e :: es' => if enabled p e then run (fst (step p e)) es' else None
  end.

Lemma run_reachable p es p' : reachable p -> run p es = Some p' -> reachable p'.
Proof.
  revert p. induction es as [|e es IH]; simpl; intros p Hp Hrun.
  - now injection Hrun as <-.
  - destruct (enabled p e) eqn:He; [|discriminate].
    apply (IH _ (reach_step _ _ Hp He) Hrun).
Qed.

Lemma enabled_offered p e :
  enabled p e = true -> exists v, FormPage_view (st p) = Normal v /\ offered p v e = true.
Proof. unfold enabled. destruct (FormPage_view (st p)) as [v|]; [eauto | discriminate]. Qed.

End Page.

(** ** Submitting and settling *)

Section Theorems.
Context `{Matcher}.

(** C3: [handleSubmit] issues a request exactly when the screenshot is
    attached and every element of [personDetails] is a hole or a person
    with a name, a valid e-mail and a valid phone number; otherwise no
    request leaves the page. *)
Theorem handleSubmit_issues_iff s :
  (exists r, snd (fst (handleSubmit s)) = Some r) <->
  transactionImage s <> None /\
  forall x, In x (personDetails s) -> x = Hole \/ exists p, x = Val p /\ person_ok p.
Proof.
  rewrite <- validateForm_nil_spec. unfold handleSubmit.
  destruct (validateForm s) as [[|m ms]|e]; simpl; split;
    try (intros [r Hr]; discriminate Hr); try (intros Hv; discriminate Hv); eauto.
Qed.

(** When a request settles, the filled-in data of the form is kept;
    a 2xx response opens the modal and leaves the messages as they were,
    any other outcome replaces the messages with exactly one. *)
Theorem settleSubmit_spec r s :
  form_data (settleSubmit r s) = form_data s /\
  match r with
  | Ok => formSubmitted (settleSubmit r s) = true /\ errors (settleSubmit r s) = errors s
  | _ => formSubmitted (settleSubmit r s) = formSubmitted s /\ length (errors (settleSubmit r s)) = 1
  end.
Proof. destruct r; simpl; auto. Qed.

(** ** Invariants of the reachable pages *)

(** What a request in flight carries. *)
Definition request_ok (r : FormData) : Prop :=
  fd_transactionScreenshot r <> None /\
  (exists pd, fd_personDetails r = stringify pd /\ validate_persons 0 pd = Normal []) /\
  In (fd_ticketType r) ticket_options /\
  fd_amount r = num_to_string (Num (price (fd_ticketType r))) /\
  exists k, (0 <= k < 1000)%Z /\ fd_ticketNumber r = generateTicketNumber k.

Definition page_inv (p : Page) : Prop :=
  amount (st p) = price (ticketType (st p)) /\
  In (ticketType (st p)) ticket_options /\
  (exists k, (0 <= k < 1000)%Z /\ ticketNumber (st p) = generateTicketNumber k) /\
  Forall request_ok (pending p).

Lemma Forall_remove_nth {A} (P : A -> Prop) i l : Forall P l -> Forall P (remove_nth i l).
Proof.
  intros Hl. unfold remove_nth. apply Forall_app. split.
  - rewrite <- (firstn_skipn i l) in Hl. now apply Forall_app in Hl as [? _].
  - rewrite <- (firstn_skipn (S i) l) in Hl. now apply Forall_app in Hl as [_ ?].
Qed.

Lemma handleSubmit_request s r :
  snd (fst (handleSubmit s)) = Some r ->
  validateForm s = Normal [] /\ r = build_form_data s.
Proof.
  unfold handleSubmit. destruct (validateForm s) as [[|m ms]|e]; simpl; try discriminate.
  intros [= <-]. auto.
Qed.

Lemma handleSubmit_fields s :
  let s' := fst (fst (handleSubmit s)) in
  ticketType s' = ticketType s /\ amount s' = amount s /\ ticketNumber s' = ticketNumber s /\
  numPersons s' = numPersons s /\ personDetails s' = personDetails s.
Proof. unfold handleSubmit. destruct (validateForm s) as [[|m ms]|e]; simpl; auto. Qed.

Lemma request_ok_build s :
  validateForm s = Normal [] ->
  amount s = price (ticketType s) -> In (ticketType s) ticket_options ->
  (exists k, (0 <= k < 1000)%Z /\ ticketNumber s = generateTicketNumber k) ->
  request_ok (build_form_data s).
Proof.
  intros Hv Ha Ht Hk. unfold validateForm in Hv.
  destruct (validate_persons 0 (personDetails s)) as [errs|] eqn:E; [|discriminate].
  injection Hv as Hv. apply app_eq_nil in Hv as [-> Himg].
  unfold request_ok; simpl. rewrite <- Ha. repeat split; eauto.
  destruct (transactionImage s); [discriminate | discriminate Himg].
Qed.

Lemma step_inv p e : page_inv p -> enabled p e = true -> page_inv (fst (step p e)).
Proof.
  intros (Ha & Ht & Hk & Hr) He. apply enabled_offered in He as (w & _ & He).
  destruct e as [v|v|i f v|fs| | |i r|]; simpl in *.
  - repeat split; auto.
    repeat (apply orb_true_iff in He as [He|He];
            [apply String.eqb_eq in He; subst; simpl; tauto|]); discriminate.
  - destruct (handleNumPersonsChange v (st p)) as [s' err] eqn:E.
    unfold handleNumPersonsChange in E.
    destruct (array_ctor_len (parseInt v)); injection E as <- <-; repeat split; auto.
  - repeat split; auto.
  - destruct fs; repeat split; auto.
  - repeat split; auto.
  - pose proof (handleSubmit_fields (st p)) as F.
    destruct (handleSubmit (st p)) as [[s' req] err] eqn:E. simpl in *.
    destruct F as (F1 & F2 & F3 & _). unfold page_inv; simpl. rewrite F1, F2, F3. repeat split; auto.
    apply Forall_app. split; [exact Hr|].
    destruct req as [r|]; [|constructor].
    destruct (handleSubmit_request (st p) r) as [Hv ->]; [now rewrite E|].
    constructor; [|constructor]. now apply request_ok_build.
  - unfold page_inv; destruct r; simpl; repeat split; auto; now apply Forall_remove_nth.
  - repeat split; auto.
Qed.

Lemma reachable_inv p : reachable p -> page_inv p.
Proof.
  induction 1 as [k Hk|p e _ IH He].
  - repeat split; eauto. simpl. now left.
  - now apply step_inv.
Qed.

(** C5: in every reachable page the unit price is the one of the
    selected ticket type (50 or 80), and the type is one of the two
    options: the two [useState] hooks never disagree. *)
Theorem reachable_amount_matches_type p :
  reachable p ->
  amount (st p) = price (ticketType (st p)) /\ In (ticketType (st p)) ticket_options.
Proof. intros Hp. destruct (reachable_inv p Hp) as (Ha & Ht & _). auto. Qed.

(** C1: every request in flight from a reachable page carries a
    screenshot, only persons that pass validation, a ticket type of the
    select with its own price, and a ticket number of the form
    [GRADPARTY-NNN/24]. *)
Theorem reachable_requests_validated p r :
  reachable p -> In r (pending p) -> request_ok r.
Proof.
  intros Hp Hin. destruct (reachable_inv p Hp) as (_ & _ & _ & Hr).
  rewrite Forall_forall in Hr. auto.
Qed.


(** C25: what the back end receives decodes: for every request in flight
    from a reachable page, the text of its [personDetails] field parses
    as a JSON array of the stored persons ([null] for holes), and those
    persons pass validation. *)
Theorem reachable_requests_decode p r :
  reachable p -> In r (pending p) ->
  exists pd, parse_json (fd_personDetails r) = Some (JArr (map slot_json pd)) /\
             validate_persons 0 pd = Normal [].
Proof.
  intros Hp Hin. destruct (reachable_inv p Hp) as (_ & _ & _ & Hr).
  rewrite Forall_forall in Hr. destruct (Hr r Hin) as (_ & (pd & -> & Hv) & _).
  exists pd. split; [apply decode_stringify | exact Hv].
Qed.

(** C11: the page always shows consistent prices: on every reachable
    page that renders, the amount shown is the price of the ticket type
    shown, and the total shown is that price times the count shown. *)
Theorem reachable_total_shown p v :
  reachable p -> FormPage_view (st p) = Normal v ->
  amount_input v = (rupee ++ num_to_string (Num (price (ticket_type_select v))))%string /\
  total_input v = (rupee ++ num_to_string (js_mul (Num (price (ticket_type_select v))) (num_persons_input v)))%string.
Proof.
  intros Hp Hv. destruct (reachable_inv p Hp) as (Ha & _).
  unfold FormPage_view in Hv. destruct (array_from_len (numPersons (st p))); [|discriminate].
  injection Hv as <-. cbn. unfold totalAmount. now rewrite Ha.
Qed.
(** The roster: for a count [n] the [Array] constructor accepts, the
    array has [n] elements, except on the untouched form, where it is
    still the empty array of line 15 while the count is 1. *)
Definition roster_inv (s : State) : Prop :=
  forall n, numPersons s = Num n -> (0 <= n <= max_array_length)%Z ->
    length (personDetails s) = Z.to_nat n \/ (personDetails s = [] /\ n = 1%Z).

Lemma length_arr_set {A} (l : list (slot A)) i v :
  (Z.of_nat i < max_array_length)%Z -> length (arr_set l i v) = Nat.max (length l) (S i).
Proof.
  intros Hi. unfold arr_set. apply Z.ltb_lt in Hi. rewrite Hi.
  destruct (Nat.ltb_spec i (length l)).
  - rewrite length_app, length_firstn. cbn [length]. rewrite length_skipn. lia.
  - rewrite !length_app, repeat_length. simpl. lia.
Qed.

Lemma to_length_valid n :
  (0 <= n <= max_array_length)%Z -> to_length (Num n) = n.
Proof. unfold to_length, max_array_length, max_safe_length. lia. Qed.

Lemma step_roster p e :
  roster_inv (st p) -> enabled p e = true -> roster_inv (st (fst (step p e))).
Proof.
  intros Hr He. apply enabled_offered in He as (w & Hw & He).
  destruct e as [v|v|i f v|fs| | |i r|]; simpl in He |- *; try exact Hr.
  - destruct (handleNumPersonsChange v (st p)) as [s' err] eqn:E.
    unfold handleNumPersonsChange in E. simpl.
    destruct (array_ctor_len (parseInt v)) as [len|] eqn:L; injection E as <- <-;
      intros n Hn Hb; simpl in *; rewrite Hn in L; unfold array_ctor_len in L.
    + rewrite repeat_length. left.
      destruct ((0 <=? n) && (n <=? max_array_length))%Z; [now injection L|discriminate].
    + destruct Hb as [Hb1 Hb2]. apply Z.leb_le in Hb1, Hb2.
      rewrite Hb1, Hb2 in L. discriminate.
  - intros n Hn Hb. simpl in *. specialize (Hr n Hn Hb).
    apply Nat.ltb_lt in He. destruct (shown_row_index _ _ _ Hw He) as [He' Hi].
    rewrite Hn, to_length_valid in He' by exact Hb.
    rewrite length_arr_set, length_spread by exact Hi. left.
    destruct Hr as [Hl | [-> ->]]; simpl in *; lia.
  - destruct fs; exact Hr.
  - unfold handleSubmit. destruct (validateForm (st p)) as [[|m ms]|err]; exact Hr.
  - destruct r; exact Hr.
Qed.

Lemma reachable_roster_inv p : reachable p -> roster_inv (st p).
Proof.
  induction 1 as [k Hk|p e _ IH He].
  - intros n [= <-] _. simpl. auto.
  - now apply step_roster.
Qed.

(** C4: in every reachable page whose count [n] the [Array] constructor
    accepts, [personDetails] has exactly [n] elements, except on the
    form nobody has typed in yet, where it is empty while the count shows
    1. *)
Theorem reachable_roster p : reachable p -> roster_inv (st p).
Proof. exact (reachable_roster_inv p). Qed.

(** C26: on a reachable page with a count [n] the [Array] constructor
    accepts, the page shows [n] person rows and every stored person has
    its row, showing its values: no person is sent without being on
    screen. *)
Theorem reachable_rows_cover_persons p n :
  reachable p -> numPersons (st p) = Num n -> (0 <= n <= max_array_length)%Z ->
  exists v, FormPage_view (st p) = Normal v /\ length (person_rows v) = Z.to_nat n /\
  forall i, i < length (personDetails (st p)) -> nth_error (person_rows v) i = Some (render_row (st p) i).
Proof.
  intros Hp Hn Hb. apply rows_cover_persons_view; [exact Hn | exact Hb|].
  destruct (reachable_roster_inv p Hp n Hn Hb) as [-> | [-> _]]; simpl; lia.
Qed.

End Theorems.

(** ** Concrete inputs *)

Definition sample_events : list event :=
  [InputNumPersons "1"; InputPersonField 0 name "Asha";
   InputPersonField 0 email "asha@mail.com"; InputPersonField 0 phone "9876543210";
   ChooseFiles [mkFile "receipt.png"]; Submit].

Definition sample_page : Page :=
  match run (init_page 7) sample_events with Some p => p | None => init_page 7 end.

Lemma sample_page_reachable : reachable sample_page.
Proof.
  unfold sample_page. destruct (run (init_page 7) sample_events) as [p|] eqn:E.
  - apply (run_reachable _ _ _ (reach_init 7 ltac:(lia)) E).
  - apply reach_init. lia.
Qed.

Lemma reachable_amount_matches_type_witness :
  amount (st sample_page) = price (ticketType (st sample_page)) /\
  In (ticketType (st sample_page)) ticket_options.
Proof. apply reachable_amount_matches_type. exact sample_page_reachable. Defined.

Lemma reachable_requests_validated_witness :
  In (build_form_data (st sample_page)) (pending sample_page) /\
  request_ok (build_form_data (st sample_page)).
Proof.
  split; [vm_compute; left; reflexivity|].
  apply (reachable_requests_validated sample_page); [exact sample_page_reachable|].
  vm_compute. left. reflexivity.
Defined.

Lemma reachable_requests_decode_witness :
  exists pd, parse_json (fd_personDetails (build_form_data (st sample_page))) = Some (JArr (map slot_json pd)) /\
             validate_persons 0 pd = Normal [].
Proof.
  apply (reachable_requests_decode sample_page); [exact sample_page_reachable|].
  vm_compute. left. reflexivity.
Defined.

Lemma reachable_total_shown_witness :
  exists v, FormPage_view (st sample_page) = Normal v /\
  total_input v = (rupee ++ num_to_string (js_mul (Num (price (ticket_type_select v))) (num_persons_input v)))%string.
Proof.
  destruct (FormPage_view (st sample_page)) as [v|e] eqn:Hv; [|vm_compute in Hv; discriminate Hv].
  exists v. split; [reflexivity|]. exact (proj2 (reachable_total_shown sample_page v sample_page_reachable Hv)).
Defined.

Lemma reachable_roster_witness : roster_inv (st sample_page).
Proof. apply reachable_roster. exact sample_page_reachable. Defined.

Lemma reachable_rows_cover_persons_witness :
  exists v, FormPage_view (st sample_page) = Normal v /\ length (person_rows v) = 1.
Proof.
  destruct (reachable_rows_cover_persons sample_page 1 sample_page_reachable
              ltac:(vm_compute; reflexivity) ltac:(vm_compute; split; discriminate)) as (v & Hv & Hl & _).
  exists v. split; [exact Hv | exact Hl].
Defined.

End Submission.
