(* ===== verification/Typing.v ===== *)
(** * The runtime type of the roster

    src/pages/buy-ticket.tsx, lines 13-15, declares [personDetails] as
    [{ name: string; email: string; phone: string }[]]. The type is not
    checked at run time: [handlePersonDetailsChange] (line 49) spreads
    [newPersonDetails[index]], which is [undefined] past the end, and the
    index assignment extends the array with holes. This file proves what
    the rendered page does guarantee: on every reachable page each
    element of [personDetails] is an object (no hole, no [undefined])
    whose own keys are distinct field names, because a row is offered
    only for an index the roster already has, or for index 0 of the
    untouched form. Consequences: validation never throws on a reachable
    page, and the declared type itself is not an invariant (an object can
    lack a key). *)

From S2P Require Import Prelude JsRuntime Regex FormState Validation Handlers Render Submission.
From Stdlib Require Import String ZArith List Lia Bool Arith.
Import ListNotations.

Module Typing.
Import Js Regex FormState Validation Handlers Render Submission.

(** ** The invariant *)

(** An object whose own keys are distinct field names. *)
Definition obj_wf (o : Obj) : Prop := NoDup (map fst o).

Definition person_typed (x : slot Obj) : Prop := exists o, x = Val o /\ obj_wf o.

(** The rows the page renders for the count are rows the roster has, but
    on the untouched form (one row, empty roster). *)
Definition rows_within (s : State) : Prop :=
  (to_length (numPersons s) <= max_array_length)%Z ->
  Z.to_nat (to_length (numPersons s)) <= length (personDetails s) \/
  (personDetails s = [] /\ to_length (numPersons s) = 1%Z).

Definition typed_inv (s : State) : Prop :=
  rows_within s /\ Forall person_typed (personDetails s).

(** ** Person objects *)

Lemma in_keys_obj_set o f v k :
  In k (map fst (obj_set o f v)) -> k = f \/ In k (map fst o).
Proof.
  induction o as [|[g w] o IH]; simpl; [intros [->|[]]; auto|].
  destruct (field_eqb f g); simpl; [tauto|]. intros [->|H]; [auto|]. apply IH in H. tauto.
Qed.

Lemma obj_set_wf o f v : obj_wf o -> obj_wf (obj_set o f v).
Proof.
  unfold obj_wf. induction o as [|[g w] o IH]; simpl; intros Hnd.
  - repeat constructor. simpl. tauto.
  - inversion Hnd as [|? ? Hg Hnd']; subst.
    destruct (field_eqb f g) eqn:E; simpl; [exact Hnd|].
    constructor; [|now apply IH].
    intros Hin. apply in_keys_obj_set in Hin as [->|Hin]; [|contradiction].
    now rewrite field_eqb_refl in E.
Qed.

Lemma blank_person_wf : obj_wf blank_person.
Proof. unfold obj_wf, blank_person. simpl. repeat constructor; simpl; intuition discriminate. Qed.

Lemma empty_obj_wf : obj_wf [].
Proof. constructor. Qed.

#[local] Hint Resolve obj_set_wf blank_person_wf empty_obj_wf : booking.

(** ** The roster under the handlers *)

Lemma spread_typed l : Forall person_typed l -> spread l = l.
Proof.
  induction 1 as [|x l (o & -> & _) _ IH]; [reflexivity|].
  unfold spread in *. simpl. now rewrite IH.
Qed.

Lemma Forall_firstn_skipn {A} (P : A -> Prop) n l :
  Forall P l -> Forall P (firstn n l) /\ Forall P (skipn n l).
Proof. intros H. rewrite <- (firstn_skipn n l) in H. now apply Forall_app in H. Qed.

Lemma arr_set_typed l i o :
  Forall person_typed l -> i <= length l -> obj_wf o -> Forall person_typed (arr_set l i o).
Proof.
  intros Hl Hi Ho. unfold arr_set.
  destruct (Z.of_nat i <? max_array_length)%Z; [|exact Hl].
  destruct (Nat.ltb_spec i (length l)).
  - destruct (Forall_firstn_skipn _ i l Hl) as [H1 _].
    destruct (Forall_firstn_skipn _ (S i) l Hl) as [_ H2].
    apply Forall_app. split; [exact H1|]. constructor; [eexists; eauto | exact H2].
  - replace (i - length l) with 0 by lia. simpl.
    apply Forall_app. split; [exact Hl|]. constructor; [eexists; eauto | constructor].
Qed.

Lemma arr_get_typed l i o : Forall person_typed l -> arr_get l i = Some o -> obj_wf o.
Proof.
  unfold arr_get. intros Hl Hget. destruct (nth_error l i) as [x|] eqn:E; [|discriminate].
  apply nth_error_In in E. rewrite Forall_forall in Hl. destruct (Hl x E) as (o' & -> & Ho').
  now injection Hget as <-.
Qed.

Lemma handlePersonDetailsChange_typed i f v s :
  Forall person_typed (personDetails s) -> i <= length (personDetails s) ->
  Forall person_typed (personDetails (handlePersonDetailsChange i f v s)).
Proof.
  intros Hl Hi. unfold handlePersonDetailsChange. simpl. rewrite spread_typed by exact Hl.
  apply arr_set_typed; [exact Hl | exact Hi|]. apply obj_set_wf.
  destruct (arr_get (personDetails s) i) as [o|] eqn:E; [exact (arr_get_typed _ _ _ Hl E) | constructor].
Qed.

(** [typed_inv] reads only the count and the roster. *)
Lemma typed_inv_ext s s' :
  numPersons s' = numPersons s -> personDetails s' = personDetails s -> typed_inv s -> typed_inv s'.
Proof. unfold typed_inv, rows_within. intros -> ->. auto. Qed.

(** An offered row has an index the roster has, or is row 0 of the
    untouched form. *)
Lemma offered_row_index s v i :
  rows_within s -> FormPage_view s = Normal v -> i < length (person_rows v) ->
  i < length (personDetails s) \/ (personDetails s = [] /\ i = 0).
Proof.
  intros Hr Hv Hi. destruct (shown_row_index s v i Hv Hi) as [Hc _].
  destruct (FormPage_view_rows s v Hv) as [Hb _]. destruct (Hr Hb) as [H | [H1 H2]]; [left; lia | right; split; [exact H1 | lia]].
Qed.

Lemma handleNumPersonsChange_typed v s :
  typed_inv s -> typed_inv (fst (handleNumPersonsChange v s)).
Proof.
  intros [Hr Hl]. unfold handleNumPersonsChange.
  destruct (array_ctor_len (parseInt v)) as [n|] eqn:E; simpl; split.
  - intros _. left. simpl. destruct (parseInt v) as [|z]; [discriminate|]. unfold array_ctor_len in E.
    destruct ((0 <=? z) && (z <=? max_array_length))%Z eqn:B; [|discriminate].
    apply andb_true_iff in B as [H1 H2]. injection E as <-. rewrite repeat_length. apply Z.leb_le in H1, H2.
    unfold to_length, max_array_length, max_safe_length in *. lia.
  - apply Forall_forall. intros x Hx. apply repeat_spec in Hx as ->. eexists; eauto with booking.
  - intros Hb. left. cbn [numPersons personDetails] in *. destruct (parseInt v) as [|z]; [simpl; lia|]. unfold array_ctor_len in E.
    unfold to_length, max_array_length, max_safe_length in *.
    destruct (Z.leb_spec 0 z), (Z.leb_spec z (2 ^ 32 - 1)); simpl in E; try discriminate; lia.
  - exact Hl.
Qed.

Section WithMatcher.
Context `{Matcher}.

Lemma step_typed p e :
  typed_inv (st p) -> enabled p e = true -> typed_inv (st (fst (step p e))).
Proof.
  intros Hinv He. apply enabled_offered in He as (w & Hw & He).
  destruct e as [x|x|i f x|fs| | |i r|]; simpl in He |- *;
    try (apply (typed_inv_ext (st p)); [reflexivity | reflexivity | exact Hinv]).
  - destruct (handleNumPersonsChange x (st p)) as [s' err] eqn:E. simpl.
    change s' with (fst (s', err)). rewrite <- E. now apply handleNumPersonsChange_typed.
  - destruct Hinv as [Hr Hl]. apply Nat.ltb_lt in He.
    split; [|apply handlePersonDetailsChange_typed; [exact Hl|];
             destruct (offered_row_index _ _ _ Hr Hw He) as [Hlt | [-> ->]]; simpl; lia].
    intros Hb. simpl in Hb |- *. rewrite length_arr_set, length_spread
      by (destruct (shown_row_index _ _ _ Hw He); lia).
    destruct (Hr Hb) as [Hlt | [-> Hone]]; left; [lia|]. simpl. lia.
  - destruct fs; apply (typed_inv_ext (st p)); auto.
  - pose proof (handleSubmit_fields (st p)) as (_ & _ & _ & F4 & F5).
    destruct (handleSubmit (st p)) as [[s' req] err]. simpl in *.
    now apply (typed_inv_ext (st p)).
  - destruct r; apply (typed_inv_ext (st p)); auto.
Qed.

Lemma reachable_typed_inv p : reachable p -> typed_inv (st p).
Proof.
  induction 1 as [k Hk|p e _ IH He]; [|now apply step_typed].
  split; [intros _; right; split; reflexivity | constructor].
Qed.

(** ** Theorems *)

(** C34: on every reachable page, every element of [personDetails] is a
    person object (never a hole or [undefined]) whose own keys are
    distinct field names. *)
Theorem reachable_persons_typed p :
  reachable p -> Forall person_typed (personDetails (st p)).
Proof. intros Hp. exact (proj2 (reachable_typed_inv p Hp)). Qed.

(** C35: on a reachable page, [validateForm] never throws, so a click on
    Submit always either stores the messages or issues the request. *)
Theorem reachable_validateForm_normal p :
  reachable p -> exists errs, validateForm (st p) = Normal errs.
Proof.
  intros Hp. pose proof (proj2 (reachable_typed_inv p Hp)) as Ht.
  unfold validateForm. destruct (validate_persons_normal 0 (personDetails (st p))) as [errs ->].
  - intros Hin. rewrite Forall_forall in Ht. destruct (Ht _ Hin) as (o & Ho & _). discriminate Ho.
  - eauto.
Qed.

End WithMatcher.

(** ** Concrete inputs *)

Lemma reachable_persons_typed_witness : Forall person_typed (personDetails (st sample_page)).
Proof. apply reachable_persons_typed. exact sample_page_reachable. Defined.

Lemma reachable_validateForm_normal_witness : exists errs, validateForm (st sample_page) = Normal errs.
Proof. apply reachable_validateForm_normal. exact sample_page_reachable. Defined.

End Typing.
