(* ===== verification/Contract.v ===== *)
(** * The submission contract of the spec, and what the page refines of it

    The spec (section 4.4) describes submission as a machine: from Idle,
    a submit validates; failing validation goes to Idle-with-errors with
    all the messages and no request; passing it issues exactly one POST
    and goes to Submitting; a 2xx response goes to Submitted (the modal),
    any other outcome to Failed with the response body or the exception
    message as the single error entry; dismissing the modal returns to
    Idle. [phase], [action] and [spec_step] write that machine down;
    [spec_next] is its transition function.

    The page of [Submission] refines this machine under the discipline
    the spec asks of the user interface ([allowed]): submit only when no
    request is in flight and the modal is closed, dismiss only the open
    modal, no edits under the modal. [R] relates a page to a phase;
    [observe] reads the action a concrete event performs. The theorems:
    every allowed event of a reachable page is simulated by one step of
    the machine ([contract_simulation]), and a whole run of allowed events
    from a mounted form ends in a page related to the phase the machine
    reaches, or stops at the first event the discipline refuses
    ([run_refines_contract]). The discipline is needed: without it the
    page sends a second request while one is in flight
    ([Scenarios.double_submission]). *)

From S2P Require Import Prelude JsRuntime Regex FormState Validation Handlers Render Submission Typing.
From Stdlib Require Import String ZArith List Lia Bool Arith.
Import ListNotations.

Module Contract.
Import Js Regex FormState Validation Handlers Render Submission Typing.

(** ** The machine of the spec *)

Inductive phase :=
| Idle
| IdleWithErrors (messages : list string)
| Submitting (request : FormData)
| Submitted
| Failed (message : string).

Inductive action :=
| AEdit
| AInvalid (messages : list string)
| AValid (request : FormData)
| ASucceed
| AFail (message : string)
| ADismiss.

(** The phases in which the form can be submitted. *)
Definition ready (a : phase) : bool :=
  match a with
  | Idle | IdleWithErrors _ | Failed _ => true
  | Submitting _ | Submitted => false
  end.

Inductive spec_step : phase -> action -> phase -> Prop :=
| spec_edit a : a <> Submitted -> spec_step a AEdit a
| spec_invalid a ms : ready a = true -> ms <> [] -> spec_step a (AInvalid ms) (IdleWithErrors ms)
| spec_valid a r : ready a = true -> spec_step a (AValid r) (Submitting r)
| spec_succeed r : spec_step (Submitting r) ASucceed Submitted
| spec_fail r m : spec_step (Submitting r) (AFail m) (Failed m)
| spec_dismiss : spec_step Submitted ADismiss Idle.

Definition is_submitted (a : phase) : bool :=
  match a with Submitted => true | _ => false end.

Definition spec_next (a : phase) (l : action) : option phase :=
  match l, a with
  | AEdit, _ => if is_submitted a then None else Some a
  | AInvalid [], _ => None
  | AInvalid ms, _ => if ready a then Some (IdleWithErrors ms) else None
  | AValid r, _ => if ready a then Some (Submitting r) else None
  | ASucceed, Submitting _ => Some Submitted
  | AFail m, Submitting _ => Some (Failed m)
  | ADismiss, Submitted => Some Idle
  | _, _ => None
  end.

(** ** The user interface the spec asks for *)

Definition allowed (a : phase) (e : event) : bool :=
  match e with
  | Submit => ready a
  | Settle _ _ => match a with Submitting _ => true | _ => false end
  | CloseModal => is_submitted a
  | _ => negb (is_submitted a)
  end.

(** ** Pages and phases *)

Definition R (p : Page) (a : phase) : Prop :=
  match a with
  | Idle => pending p = [] /\ formSubmitted (st p) = false
  | IdleWithErrors ms => pending p = [] /\ formSubmitted (st p) = false /\ errors (st p) = ms
  | Submitting r => pending p = [r] /\ formSubmitted (st p) = false
  | Submitted => pending p = [] /\ formSubmitted (st p) = true
  | Failed m =>
      pending p = [] /\ formSubmitted (st p) = false /\ exists pre, errors (st p) = [(pre ++ m)%string]
  end.

(** The body or the message a settled request surfaces. *)
Definition outcome_text (r : response) : option string :=
  match r with
  | Ok => None
  | NotOk body => Some body
  | NetworkFailure message => Some message
  end.

Section WithMatcher.
Context `{Matcher}.

(** The action a concrete event performs. *)
Definition observe (p : Page) (e : event) : action :=
  match e with
  | Submit =>
      match validateForm (st p) with
      | Normal [] => AValid (build_form_data (st p))
      | Normal ms => AInvalid ms
      | Abrupt _ => AEdit
      end
  | Settle _ r => match outcome_text r with None => ASucceed | Some m => AFail m end
  | CloseModal => ADismiss
  | _ => AEdit
  end.

(** Runs the events the discipline allows, with the phase of the
    machine beside the page; [None] at the first event the discipline
    or the page refuses, or that the machine cannot follow. *)
Fixpoint contract_run (p : Page) (a : phase) (es : list event) : option (Page * phase) :=
  match es with
  | [] => Some (p, a)
  | e :: es' =>
      if allowed a e && enabled p e then
        match spec_next a (observe p e) with
        | Some a' => contract_run (fst (step p e)) a' es'
        | None => None
        end
      else None
  end.

End WithMatcher.

(** ** The machine *)

Lemma spec_next_step a l a' : spec_next a l = Some a' -> spec_step a l a'.
Proof.
  destruct l as [|[|m ms]|r| |m|]; destruct a; simpl; try discriminate;
    intros [= <-]; constructor; try reflexivity; discriminate.
Qed.

Lemma spec_step_next a l a' : spec_step a l a' -> spec_next a l = Some a'.
Proof.
  destruct 1 as [a Ha|a ms Ha Hms|a r Ha| | |]; simpl; try reflexivity.
  - destruct a; [..| |]; try reflexivity. contradiction.
  - destruct ms; [contradiction|]. now rewrite Ha.
  - now rewrite Ha.
Qed.

(** ** The concrete steps *)

(** [R] reads only the requests in flight, the modal flag and the
    messages. *)
Lemma R_ext p p' a :
  pending p' = pending p -> formSubmitted (st p') = formSubmitted (st p) ->
  errors (st p') = errors (st p) -> R p a -> R p' a.
Proof. intros Hp Hf He. destruct a; simpl; rewrite Hp, Hf; try rewrite He; auto. Qed.

(** On a page in the phase Failed, the rendered error list is one line
    that ends with the body or the message, verbatim. *)
Lemma failed_shows_one_line p m v :
  R p (Failed m) -> FormPage_view (st p) = Normal v ->
  exists pre, error_view v = Some [(pre ++ m)%string].
Proof.
  intros (_ & _ & pre & He) Hv. exists pre. unfold FormPage_view in Hv.
  destruct (array_from_len (numPersons (st p))); [|discriminate].
  injection Hv as <-. simpl. unfold error_block. now rewrite He.
Qed.

Section Simulation.
Context `{Matcher}.

Definition is_edit (e : event) : bool :=
  match e with
  | Submit | Settle _ _ | CloseModal => false
  | _ => true
  end.

Lemma edit_keeps p e :
  is_edit e = true ->
  pending (fst (step p e)) = pending p /\
  formSubmitted (st (fst (step p e))) = formSubmitted (st p) /\
  errors (st (fst (step p e))) = errors (st p).
Proof.
  destruct e as [x|x|i f x|fs| | |i r|]; simpl; try discriminate; intros _; auto.
  - destruct (handleNumPersonsChange x (st p)) as [s' err] eqn:E. unfold handleNumPersonsChange in E.
    destruct (array_ctor_len (parseInt x)); injection E as <- <-; auto.
  - destruct fs; auto.
Qed.

Lemma reachable_no_undef p : reachable p -> no_undef (personDetails (st p)).
Proof.
  intros Hp Hin. destruct (reachable_typed_inv p Hp) as [_ Ht].
  rewrite Forall_forall in Ht. destruct (Ht _ Hin) as (o & Ho & _). discriminate Ho.
Qed.

Lemma submit_step p :
  reachable p ->
  (validateForm (st p) = Normal [] /\
   pending (fst (step p Submit)) = (pending p ++ [build_form_data (st p)])%list /\
   formSubmitted (st (fst (step p Submit))) = formSubmitted (st p) /\
   errors (st (fst (step p Submit))) = errors (st p)) \/
  (exists ms, ms <> [] /\ validateForm (st p) = Normal ms /\
   pending (fst (step p Submit)) = pending p /\
   formSubmitted (st (fst (step p Submit))) = formSubmitted (st p) /\
   errors (st (fst (step p Submit))) = ms).
Proof.
  intros Hp. assert (Hn : exists es, validateForm (st p) = Normal es).
  { unfold validateForm.
    destruct (validate_persons_normal 0 (personDetails (st p)) (reachable_no_undef p Hp)) as [es ->].
    eauto. }
  destruct Hn as [[|m ms] Hv]; unfold step, handleSubmit; rewrite Hv; simpl.
  - left. repeat split.
  - right. exists (m :: ms). rewrite app_nil_r. repeat split; auto. discriminate.
Qed.

Lemma contract_step p a e :
  reachable p -> R p a -> allowed a e = true -> enabled p e = true ->
  exists a', spec_step a (observe p e) a' /\ R (fst (step p e)) a'.
Proof.
  intros Hp HR Ha He.
  destruct (is_edit e) eqn:Hed.
  - exists a. destruct e; try discriminate Hed; split;
      try (constructor; intros ->; discriminate Ha);
      destruct (edit_keeps p _ Hed) as (E1 & E2 & E3); exact (R_ext _ _ _ E1 E2 E3 HR).
  - destruct e as [| | | | | |i r|]; try discriminate Hed.
    + (* Submit *)
      assert (Hnil : pending p = []) by (destruct a; try discriminate Ha; apply HR).
      assert (Hfs : formSubmitted (st p) = false) by (destruct a; try discriminate Ha; apply HR).
      unfold observe.
      destruct (submit_step p Hp) as [(Hv & Hq & Hf & _) | (ms & Hms & Hv & Hq & Hf & He')];
        rewrite Hv.
      * exists (Submitting (build_form_data (st p))). split; [now constructor|].
        cbn [R]. rewrite Hq, Hf, Hnil. auto.
      * destruct ms as [|m ms]; [contradiction|]. exists (IdleWithErrors (m :: ms)).
        split; [now constructor|]. cbn [R]. rewrite Hq, Hf, He', Hnil. auto.
    + (* Settle *)
      destruct a as [| |req| |]; try discriminate Ha. destruct HR as [Hq Hfs].
      apply enabled_offered in He as (w & _ & He). simpl in He. rewrite Hq in He.
      destruct i; [|simpl in He; apply Nat.ltb_lt in He; lia].
      destruct r as [|body|msg]; simpl.
      * exists Submitted. split; [constructor|]. rewrite Hq. split; reflexivity.
      * exists (Failed body). split; [constructor|]. rewrite Hq.
        split; [reflexivity | split; [exact Hfs | exists "Failed to submit data: "%string; reflexivity]].
      * exists (Failed msg). split; [constructor|]. rewrite Hq.
        split; [reflexivity | split; [exact Hfs | exists "Failed to submit data: "%string; reflexivity]].
    + (* CloseModal *)
      destruct a; try discriminate Ha. destruct HR as [Hq _].
      exists Idle. split; [constructor|]. simpl. auto.
Qed.

(** C36: the page refines the machine of the spec, one step at a time:
    on a reachable page related to a phase, every event the discipline
    allows and the page offers performs an action the machine can take
    from that phase, and the new page is related to the phase the
    machine reaches. In particular a submit from a ready phase either
    stores all the messages and issues no request, or issues exactly one
    request carrying the current form; a response to it opens the modal
    or leaves one message that carries the body verbatim. *)
Theorem contract_simulation p a e :
  reachable p -> R p a -> allowed a e = true -> enabled p e = true ->
  exists a', spec_step a (observe p e) a' /\ R (fst (step p e)) a'.
Proof. exact (contract_step p a e). Qed.

Lemma contract_run_sound p a es :
  reachable p -> R p a ->
  match contract_run p a es with
  | Some (p', a') => reachable p' /\ R p' a'
  | None => exists pre e post p' a', es = (pre ++ e :: post)%list /\
      contract_run p a pre = Some (p', a') /\ (allowed a' e && enabled p' e) = false
  end.
Proof.
  revert p a. induction es as [|e es IH]; intros p a Hp HR; simpl; [auto|].
  destruct (allowed a e && enabled p e) eqn:G.
  - pose proof G as G'. apply andb_true_iff in G' as [Ga Ge].
    destruct (contract_step p a e Hp HR Ga Ge) as (a' & Hs & HR').
    rewrite (spec_step_next _ _ _ Hs).
    specialize (IH _ _ (reach_step p e Hp Ge) HR').
    destruct (contract_run (fst (step p e)) a' es) as [[p'' a'']|]; [exact IH|].
    destruct IH as (pre & e' & post & p' & a0 & -> & Hr & Hg).
    exists (e :: pre), e', post, p', a0. simpl. rewrite G, (spec_step_next _ _ _ Hs). auto.
  - exists [], e, es, p, a. auto.
Qed.

(** C37: a whole run of events from a mounted form, under the
    discipline, either ends in a reachable page related to the phase the
    machine reaches from Idle, or stops at an event that the discipline
    or the page refuses: the machine never fails to follow the page. *)
Theorem run_refines_contract k es :
  (0 <= k < 1000)%Z ->
  match contract_run (init_page k) Idle es with
  | Some (p, a) => reachable p /\ R p a
  | None => exists pre e post p a, es = (pre ++ e :: post)%list /\
      contract_run (init_page k) Idle pre = Some (p, a) /\ (allowed a e && enabled p e) = false
  end.
Proof. intros Hk. apply contract_run_sound; [now constructor | split; reflexivity]. Qed.

End Simulation.

(** ** Progress *)

(** The events of one purchase: one person, valid data, a screenshot,
    and the button. *)
Definition purchase : list event :=
  [InputNumPersons "1"; InputPersonField 0 name "Asha"; InputPersonField 0 email "asha@mail.com";
   InputPersonField 0 phone "9876543210"; ChooseFiles [mkFile "receipt.png"]; Submit].

(** C38: the form never gets stuck: from every reachable page that
    renders, whatever was typed before, the six events of [purchase] are
    offered and end with one more request in flight, carrying the form
    as it then is. *)
Theorem purchase_always_possible p :
  reachable p -> (exists v, FormPage_view (st p) = Normal v) ->
  exists p', run p purchase = Some p' /\ reachable p' /\
    pending p' = (pending p ++ [build_form_data (st p')])%list.
Proof.
  intros Hp [v Hv].
  assert (E1 : enabled p (InputNumPersons "1") = true) by (unfold enabled; now rewrite Hv).
  unfold purchase. cbn [run]. rewrite E1.
  eexists. split; [reflexivity|]. split.
  - apply (run_reachable (fst (step p (InputNumPersons "1")))
             (List.tl purchase)); [exact (reach_step p _ Hp E1) | reflexivity].
  - reflexivity.
Qed.

(** ** Concrete inputs *)

Lemma contract_simulation_witness :
  exists a', spec_step Idle (observe (init_page 7) Submit) a' /\
             R (fst (step (init_page 7) Submit)) a'.
Proof.
  apply contract_simulation; [apply reach_init; lia | split; reflexivity | reflexivity | vm_compute; reflexivity].
Defined.

Definition polite_run : list event :=
  [Submit; ChooseFiles [mkFile "receipt.png"]] ++ List.tl purchase ++ [Settle 0 (NotOk "busy"); Submit; Settle 0 Ok; CloseModal].

Lemma run_refines_contract_witness :
  match contract_run (init_page 7) Idle polite_run with
  | Some (p, a) => reachable p /\ R p a
  | None => exists pre e post p a, polite_run = (pre ++ e :: post)%list /\
      contract_run (init_page 7) Idle pre = Some (p, a) /\ (allowed a e && enabled p e) = false
  end.
Proof. apply run_refines_contract. lia. Defined.

Lemma purchase_always_possible_witness :
  exists p', run (init_page 7) purchase = Some p' /\ reachable p' /\
    pending p' = (pending (init_page 7) ++ [build_form_data (st p')])%list.
Proof.
  apply purchase_always_possible; [apply reach_init; lia | eexists; vm_compute; reflexivity].
Defined.

End Contract.
