(* ===== verification/Scenarios.v ===== *)
(** * What the code allows: behaviours of the page for every input

    Each theorem here is about every page, state or input of a kind, not
    one run: the behaviours of the code that the spec does not describe
    or describes otherwise, and the purchase scenario of the spec for
    every valid person.
    - a roster that is empty, whatever the count shows, submits a
      request without any person (the untouched form is such a page);
    - a count of 0 is accepted, shows no row and submits a request
      without any person and a total of 0;
    - a count input that [parseInt] reads as NaN keeps the stored
      persons, hides their rows, and any request then carries the total
      [NaN];
    - a count above [2^32 - 1] makes the next render throw and unmounts
      the page;
    - a second click on Submit while a request is in flight issues a
      second, identical request;
    - a successful submission keeps the messages of an earlier failed
      validation on screen under the modal;
    - typing into a row that has no stored person stores an object with
      one key;
    - a person without an e-mail gets the message "Email Address of
      Person i is required." and no request leaves the page.
    The concrete runs from the mounted form with the draw 7 serve as the
    witnesses. *)

From S2P Require Import Prelude JsRuntime Regex Patterns TicketNumber FormState Validation Handlers Json Render Submission.
From Stdlib Require Import String Ascii ZArith List Lia Bool.
Import ListNotations.
Local Open Scope string_scope.

Module Scenarios.
Import Js Regex Patterns TicketNumber FormState Json Validation Handlers Render Submission.

(** The typed-in values of one person in row [i]. *)
Definition fill_person (i : nat) (nm em ph : string) : list event :=
  [InputPersonField i name nm; InputPersonField i email em; InputPersonField i phone ph].

(** The purchase of the spec: one person, the screenshot, Submit. *)
Definition single_person_purchase (nm em ph : string) (f : File) : list event :=
  ([InputNumPersons "1"] ++ fill_person 0 nm em ph ++ [ChooseFiles [f]; Submit])%list.

(** ** Lemmas on runs and steps *)

Section Steps.
Context `{Matcher}.

Lemma run_app p es1 es2 :
  run p (es1 ++ es2) = match run p es1 with Some p' => run p' es2 | None => None end.
Proof.
  revert p. induction es1 as [|e es1 IH]; intros p; simpl; [reflexivity|].
  destruct (enabled p e); [apply IH | reflexivity].
Qed.

Lemma step_count p v :
  step p (InputNumPersons v) =
  ({| st := fst (handleNumPersonsChange v (st p)); pending := pending p |},
   snd (handleNumPersonsChange v (st p))).
Proof. unfold step. now destruct (handleNumPersonsChange v (st p)). Qed.

Lemma step_submit_issued p r :
  snd (fst (handleSubmit (st p))) = Some r ->
  step p Submit = ({| st := st p; pending := pending p ++ [r] |}, None).
Proof.
  intros Hr. destruct (handleSubmit_request _ _ Hr) as [Hv ->].
  unfold step, handleSubmit. now rewrite Hv.
Qed.

Lemma handleSubmit_valid s :
  validateForm s = Normal [] -> snd (fst (handleSubmit s)) = Some (build_form_data s).
Proof. unfold handleSubmit. now intros ->. Qed.

Lemma validateForm_empty_roster s f :
  personDetails s = [] -> transactionImage s = Some f -> validateForm s = Normal [].
Proof. unfold validateForm. now intros -> ->. Qed.

(** [Submit] is offered wherever the page renders, so it stays offered
    when only the requests in flight change. *)
Lemma enabled_submit_pending p q :
  enabled {| st := st p; pending := q |} Submit = enabled p Submit.
Proof. unfold enabled. simpl. now destruct (FormPage_view (st p)). Qed.

Lemma remove_nth_last {A} (l : list A) x : remove_nth (length l) (l ++ [x]) = l.
Proof.
  unfold remove_nth. induction l as [|y l IH]; [reflexivity|]. cbn [length app firstn skipn].
  f_equal. exact IH.
Qed.

Lemma array_from_len_too_large n :
  (max_array_length < n)%Z -> array_from_len (Num n) = None.
Proof.
  intros Hn. unfold array_from_len, to_length, max_array_length, max_safe_length in *.
  destruct (Z.leb_spec (Z.max 0 (Z.min n (2 ^ 53 - 1))) (2 ^ 32 - 1)); [lia | reflexivity].
Qed.

Lemma arr_get_spread {A} (l : list (slot A)) i : arr_get (spread l) i = arr_get l i.
Proof. unfold arr_get. rewrite nth_error_spread. now destruct (nth_error l i) as [[| |a]|]. Qed.

End Steps.

(** ** Theorems *)

Section Behaviours.
Context `{Matcher}.

(** C6: [validateForm] visits only the stored persons and never compares
    them with the count: on every page whose roster is empty and whose
    screenshot is attached, whatever count it shows, Submit issues a
    request whose persons are the JSON text [[]]. The untouched form,
    which shows one row, is such a page. *)
Theorem submit_without_persons p f :
  personDetails (st p) = [] -> transactionImage (st p) = Some f ->
  step p Submit = ({| st := st p; pending := pending p ++ [build_form_data (st p)] |}, None) /\
  fd_personDetails (build_form_data (st p)) = "[]".
Proof.
  intros Hpd Hf. split.
  - apply step_submit_issued, handleSubmit_valid. exact (validateForm_empty_roster _ _ Hpd Hf).
  - simpl. now rewrite Hpd.
Qed.

(** C10: the count input accepts 0 ([min='1'] does not constrain typed
    input): from any page with a screenshot, a count that [parseInt]
    reads as 0 empties the roster and the page shows no row; Submit then
    issues a request without any person and with the total 0, whatever
    the ticket type. *)
Theorem submit_zero_persons p v f :
  parseInt v = Num 0 -> transactionImage (st p) = Some f ->
  let p1 := fst (step p (InputNumPersons v)) in
  snd (step p (InputNumPersons v)) = None /\
  (exists w, FormPage_view (st p1) = Normal w /\ person_rows w = []) /\
  step p1 Submit = ({| st := st p1; pending := pending p ++ [build_form_data (st p1)] |}, None) /\
  fd_personDetails (build_form_data (st p1)) = "[]" /\ fd_total (build_form_data (st p1)) = "0".
Proof.
  intros Hv Hf. rewrite step_count.
  assert (E : handleNumPersonsChange v (st p) = ({| (st p) with numPersons := Num 0; personDetails := [] |}, None))
    by (unfold handleNumPersonsChange; now rewrite Hv).
  rewrite E. cbn [fst snd st pending].
  split; [reflexivity|]. split; [eexists; split; reflexivity|].
  split; [|split; [reflexivity | cbn; now rewrite Z.mul_0_r]].
  etransitivity; [apply step_submit_issued, handleSubmit_valid|reflexivity].
  now apply (validateForm_empty_roster _ f).
Qed.

(** C8: a count input that [parseInt] reads as NaN (an emptied field)
    is stored by [setNumPersons] before [Array(NaN)] throws, so the
    stored persons stay; any request issued afterwards carries those
    persons in its JSON text and the total [NaN]. *)
Theorem submit_nan_total p v :
  parseInt v = NaN ->
  let p1 := fst (step p (InputNumPersons v)) in
  snd (step p (InputNumPersons v)) = Some RangeError /\
  personDetails (st p1) = personDetails (st p) /\
  forall r, snd (fst (handleSubmit (st p1))) = Some r ->
    fd_total r = "NaN" /\ fd_personDetails r = stringify (personDetails (st p)).
Proof.
  intros Hv. rewrite step_count. unfold handleNumPersonsChange. rewrite Hv. cbn.
  split; [reflexivity|]. split; [reflexivity|].
  intros r Hr. apply handleSubmit_request in Hr as [_ ->]. split; reflexivity.
Qed.

(** C27: after such a NaN count, the page still renders, with no person
    row and the total [NaN], while every stored person is kept: persons
    that are no longer on screen are validated and sent. *)
Theorem hidden_person_after_clearing_count p v :
  parseInt v = NaN ->
  let s1 := st (fst (step p (InputNumPersons v))) in
  personDetails s1 = personDetails (st p) /\ numPersons s1 = NaN /\
  exists w, FormPage_view s1 = Normal w /\ person_rows w = [] /\ total_input w = (rupee ++ "NaN").
Proof.
  intros Hv. rewrite step_count. unfold handleNumPersonsChange. rewrite Hv. cbn.
  split; [reflexivity|]. split; [reflexivity|]. eexists. split; [reflexivity | split; reflexivity].
Qed.

(** C33: a count above [2^32 - 1] is stored by [setNumPersons] before
    [Array(newNumPersons)] throws; the next render throws a [RangeError]
    in [Array.from], and the unmounted page offers no event any more:
    whatever was filled in is lost. *)
Theorem huge_count_unmounts_page p v n :
  parseInt v = Num n -> (max_array_length < n)%Z ->
  let p1 := fst (step p (InputNumPersons v)) in
  snd (step p (InputNumPersons v)) = Some RangeError /\ numPersons (st p1) = Num n /\
  FormPage_view (st p1) = Abrupt RangeError /\ forall e, enabled p1 e = false.
Proof.
  intros Hv Hn. rewrite step_count. unfold handleNumPersonsChange. rewrite Hv.
  assert (Hc : array_ctor_len (Num n) = None).
  { unfold array_ctor_len. destruct (Z.leb_spec n max_array_length); [lia|].
    now rewrite andb_false_r. }
  assert (Hview : FormPage_view {| (st p) with numPersons := Num n |} = Abrupt RangeError).
  { unfold FormPage_view. simpl. now rewrite array_from_len_too_large. }
  rewrite Hc. cbn [fst snd st]. split; [reflexivity|]. split; [reflexivity|]. split; [exact Hview|].
  intros e. unfold enabled. cbn [st]. now rewrite Hview.
Qed.

(** C7: nothing guards against a second click while a request is in
    flight: from every page where Submit issues a request, Submit is
    still offered and a second click issues the same request again. *)
Theorem double_submission p r :
  enabled p Submit = true -> snd (fst (handleSubmit (st p))) = Some r ->
  enabled (fst (step p Submit)) Submit = true /\
  fst (step (fst (step p Submit)) Submit) = {| st := st p; pending := pending p ++ [r; r] |}.
Proof.
  intros He Hr. rewrite (step_submit_issued p r Hr). cbn [fst].
  rewrite enabled_submit_pending. split; [exact He|].
  rewrite (step_submit_issued {| st := st p; pending := pending p ++ [r] |} r Hr). cbn.
  now rewrite <- app_assoc.
Qed.

(** C9: a successful submission does not clear the messages of an
    earlier failed validation: from every page where Submit issues a
    request, the settling of that request with a 2xx response is
    offered and opens the modal over the same messages as before. *)
Theorem stale_errors_after_success p r :
  enabled p Submit = true -> snd (fst (handleSubmit (st p))) = Some r ->
  let p1 := fst (step p Submit) in
  let p2 := fst (step p1 (Settle (length (pending p)) Ok)) in
  enabled p1 (Settle (length (pending p)) Ok) = true /\ pending p2 = pending p /\
  formSubmitted (st p2) = true /\ errors (st p2) = errors (st p).
Proof.
  intros He Hr. rewrite (step_submit_issued p r Hr). cbn.
  split; [|split; [apply remove_nth_last | split; reflexivity]].
  apply enabled_offered in He as (w & Hw & _). unfold enabled. simpl. rewrite Hw. simpl.
  apply Nat.ltb_lt. rewrite length_app. simpl. lia.
Qed.

(** C40: the declared element type [{ name; email; phone }] is not kept:
    typing into a row that has no stored person (a hole, [undefined] or
    past the end, as on the untouched form) stores
    [{ ...undefined, [field]: value }], an object with that one key, so
    the two other fields read as [undefined]. *)
Theorem partial_person_object s i f v :
  arr_get (personDetails s) i = None -> (Z.of_nat i < max_array_length)%Z ->
  nth_error (personDetails (handlePersonDetailsChange i f v s)) i = Some (Val [(f, v)]).
Proof.
  intros Hnone Hi. unfold handlePersonDetailsChange. cbn [personDetails].
  rewrite arr_get_spread, Hnone. now rewrite nth_error_arr_set_same.
Qed.

(** C24: a stored person without an e-mail makes [validateForm] list
    "Email Address of Person i is required." under that person's
    number; Submit then stores the messages and issues no request. *)
Theorem missing_email_reported s i o :
  ~ In Undef (personDetails s) -> nth_error (personDetails s) i = Some (Val o) ->
  truthy (obj_get o email) = false ->
  exists errs, validateForm s = Normal errs /\ In (email_required i) errs /\
    handleSubmit s = ({| s with errors := errs |}, None, None).
Proof.
  intros Hu Hi Hm. destruct (validate_persons_normal 0 _ Hu) as [errs E].
  assert (Hin : In (email_required i) errs).
  { apply (validate_persons_incl 0 _ _ i o E Hi). unfold person_errors. rewrite Hm.
    apply in_app_iff. right. now left. }
  unfold handleSubmit, validateForm. rewrite E.
  destruct (errs ++ _)%list as [|m ms] eqn:Ee.
  - apply app_eq_nil in Ee as [-> _]. destruct Hin.
  - exists (m :: ms). split; [reflexivity|]. split; [|reflexivity].
    rewrite <- Ee. apply in_app_iff. now left.
Qed.

(** C23: the purchase of the spec, for every valid person: from the
    mounted form, a count of 1, a non-empty name, an e-mail and a phone
    number the patterns accept, a screenshot and Submit issue exactly
    one request, with no message, carrying the ticket number of the
    draw, the amount and total 50 and exactly that person. *)
Theorem scenario_single_valid_person k nm em ph f :
  (0 <= k < 1000)%Z -> nm <> "" -> em <> "" -> email_test em = true -> ph <> "" -> phone_test ph = true ->
  exists p r, run (init_page k) (single_person_purchase nm em ph f) = Some p /\ reachable p /\
    errors (st p) = [] /\ pending p = [r] /\
    fd_ticketNumber r = generateTicketNumber k /\ fd_amount r = "50" /\ fd_total r = "50" /\
    fd_transactionScreenshot r = Some f /\
    fd_personDetails r = stringify [Val [(name, nm); (email, em); (phone, ph)]].
Proof.
  intros Hk Hnm Hem Het Hph Hpt.
  set (s5 := {| ticketType := lonely; amount := 50; numPersons := Num 1; showQrCode := false;
                transactionImage := Some f; formSubmitted := false; errors := [];
                personDetails := [Val [(name, nm); (email, em); (phone, ph)]];
                ticketNumber := generateTicketNumber k |}).
  assert (E5 : run (init_page k) ([InputNumPersons "1"] ++ fill_person 0 nm em ph ++ [ChooseFiles [f]])%list =
               Some {| st := s5; pending := [] |}) by reflexivity.
  assert (Hv : validateForm s5 = Normal []).
  { apply validateForm_nil_spec. split; [discriminate|].
    intros x [<-|[]]. right. eexists. split; [reflexivity|].
    destruct nm as [|c nm']; [congruence|].
    split; [reflexivity|]. split; [exists em | exists ph]; repeat split; auto. }
  exists {| st := s5; pending := [build_form_data s5] |}, (build_form_data s5).
  assert (Hrun : run (init_page k) (single_person_purchase nm em ph f) =
                 Some {| st := s5; pending := [build_form_data s5] |}).
  { replace (single_person_purchase nm em ph f)
      with (([InputNumPersons "1"] ++ fill_person 0 nm em ph ++ [ChooseFiles [f]]) ++ [Submit])%list
      by reflexivity.
    rewrite run_app.
    rewrite E5. cbn [run]. replace (enabled {| st := s5; pending := [] |} Submit) with true by reflexivity.
    rewrite (step_submit_issued {| st := s5; pending := [] |} _ (handleSubmit_valid _ Hv)). reflexivity. }
  split; [exact Hrun|]. split; [exact (run_reachable _ _ _ (reach_init k Hk) Hrun)|].
  repeat split; reflexivity.
Qed.

End Behaviours.

(** ** Concrete inputs *)

Definition receipt : File := mkFile "receipt.png".

(** The untouched form of the draw 7 with the screenshot chosen. *)
Definition untouched_with_receipt : Page :=
  fst (step (init_page 7) (ChooseFiles [receipt])).

Lemma submit_without_persons_witness :
  fd_personDetails (build_form_data (st untouched_with_receipt)) = "[]" /\
  numPersons (st untouched_with_receipt) = Num 1.
Proof.
  split; [|reflexivity].
  exact (proj2 (submit_without_persons untouched_with_receipt receipt eq_refl eq_refl)).
Defined.

Lemma submit_zero_persons_witness :
  fd_total (build_form_data (st (fst (step untouched_with_receipt (InputNumPersons "0"))))) = "0".
Proof.
  destruct (submit_zero_persons untouched_with_receipt "0" receipt eq_refl eq_refl) as (_ & _ & _ & _ & T).
  exact T.
Defined.

(** The page with Asha filled in and the screenshot chosen. *)
Definition filled_page : Page :=
  match run (init_page 7) ([InputNumPersons "1"] ++ fill_person 0 "Asha" "asha@mail.com" "9876543210" ++
                           [ChooseFiles [receipt]])%list with
  | Some p => p
  | None => init_page 7
  end.

Lemma submit_nan_total_witness :
  personDetails (st (fst (step filled_page (InputNumPersons "")))) = personDetails (st filled_page) /\
  length (personDetails (st filled_page)) = 1%nat.
Proof.
  split; [exact (proj1 (proj2 (submit_nan_total filled_page "" eq_refl))) | reflexivity].
Defined.

Lemma hidden_person_after_clearing_count_witness :
  numPersons (st (fst (step filled_page (InputNumPersons "")))) = NaN /\
  length (personDetails (st filled_page)) = 1%nat.
Proof.
  split; [exact (proj1 (proj2 (hidden_person_after_clearing_count filled_page "" eq_refl))) | reflexivity].
Defined.

Lemma huge_count_unmounts_page_witness :
  FormPage_view (st (fst (step filled_page (InputNumPersons "5000000000")))) = Abrupt RangeError.
Proof.
  destruct (huge_count_unmounts_page filled_page "5000000000" 5000000000 eq_refl ltac:(vm_compute; reflexivity))
    as (_ & _ & V & _).
  exact V.
Defined.

Lemma double_submission_witness :
  enabled (fst (step filled_page Submit)) Submit = true.
Proof.
  exact (proj1 (double_submission filled_page (build_form_data (st filled_page))
                  ltac:(vm_compute; reflexivity) ltac:(vm_compute; reflexivity))).
Defined.

(** The filled page after a first Submit without a screenshot. *)
Definition failed_then_filled : Page :=
  match run (init_page 7) ([Submit; InputNumPersons "1"] ++ fill_person 0 "Asha" "asha@mail.com" "9876543210" ++
                           [ChooseFiles [receipt]])%list with
  | Some p => p
  | None => init_page 7
  end.

Lemma stale_errors_after_success_witness :
  errors (st failed_then_filled) = [screenshot_required] /\
  formSubmitted (st (fst (step (fst (step failed_then_filled Submit)) (Settle 0 Ok)))) = true.
Proof.
  split; [reflexivity|].
  exact (proj1 (proj2 (proj2 (stale_errors_after_success failed_then_filled (build_form_data (st failed_then_filled))
                                 ltac:(vm_compute; reflexivity) ltac:(vm_compute; reflexivity))))).
Defined.

Lemma partial_person_object_witness :
  nth_error (personDetails (handlePersonDetailsChange 0 name "Asha" (st (init_page 7)))) 0 =
  Some (Val [(name, "Asha")]).
Proof. apply partial_person_object; reflexivity. Defined.

(** The filled page with the e-mail erased. *)
Definition no_email_state : State := handlePersonDetailsChange 0 email "" (st filled_page).

Lemma missing_email_reported_witness :
  exists errs, validateForm no_email_state = Normal errs /\ In (email_required 0) errs /\
    handleSubmit no_email_state = ({| no_email_state with errors := errs |}, None, None).
Proof.
  apply (missing_email_reported no_email_state 0 [(name, "Asha"); (email, ""); (phone, "9876543210")]).
  - vm_compute. intuition discriminate.
  - vm_compute. reflexivity.
  - reflexivity.
Defined.

Lemma scenario_single_valid_person_witness :
  exists p r, run (init_page 7) (single_person_purchase "Asha" "asha@mail.com" "9876543210" receipt) = Some p /\
    reachable p /\ errors (st p) = [] /\ pending p = [r] /\
    fd_ticketNumber r = generateTicketNumber 7 /\ fd_amount r = "50" /\ fd_total r = "50" /\
    fd_transactionScreenshot r = Some receipt /\
    fd_personDetails r = stringify [Val [(name, "Asha"); (email, "asha@mail.com"); (phone, "9876543210")]].
Proof.
  apply scenario_single_valid_person;
    first [lia | discriminate | vm_compute; reflexivity].
Defined.

End Scenarios.
